(** * Item Web Builder

    A shallow embedding of [src/ItemWebBuilder.jsx]: the persistence
    adapter ([loadData], [saveData], [importData]), the identifier
    generator ([generateId]), the state operations of the component
    ([deleteItem], [addConnection], [updateCategory], [deleteCategory],
    [updateRelationshipType], [deleteRelationshipType]), the lookup
    helpers ([getCategory], [getRelType]), the wiring of the New Connection
    dialog and the arrow geometry ([getArrowPath]).

    What the browser provides (localStorage, JSON, Date.now, Math.random,
    the Math functions, the conversion of numbers to text) is a parameter
    of the definitions that call it. [Engine] is one such browser, used
    to run the definitions on examples.

    The application state is whatever JavaScript value [loadData] or
    [importData] produced, so the model works on JavaScript values, not
    on a typed record: an exception of the source (a TypeError on a
    property read of null, a SyntaxError of JSON.parse, a throwing
    localStorage) is [None]. *)

From Stdlib Require Import String Ascii List Bool ZArith Lia Floats.
Import ListNotations.
Local Open Scope string_scope.

(** ** JavaScript values *)

Module JS.

(** A JavaScript number is an IEEE 754 binary64 value. *)
Definition number : Set := float.

(** Objects are kept as their own enumerable properties in insertion
    order, the order in which spread and JSON.stringify visit them. *)
#[local] Set Warnings "-register-all".
Inductive value : Type :=
| VUndefined
| VNull
| VBool (b : bool)
| VNum (n : number)
| VStr (s : string)
| VArr (elems : list value)
| VObj (props : list (string * value)).

Definition nullish (v : value) : bool :=
  match v with
  | VUndefined | VNull => true
  | _ => false
  end.

Fixpoint lookup (k : string) (ps : list (string * value)) : option value :=
  match ps with
  | [] => None
  | (k', v) :: ps' => if String.eqb k' k then Some v else lookup k ps'
  end.

(** [prop k v] is the value of [v.k] when the read does not throw. The
    program reads the keys items, connections, categories,
    relationshipTypes, id, category, sourceId, targetId and
    relationshipType only: none of them names a built-in property of a
    string, a number, a boolean or an array, so the read is undefined on
    those. *)
Definition prop (k : string) (v : value) : value :=
  match v with
  | VObj ps => match lookup k ps with Some x => x | None => VUndefined end
  | _ => VUndefined
  end.

(** [v.k]: a TypeError on null and undefined. *)
Definition get (k : string) (v : value) : option value :=
  if nullish v then None else Some (prop k v).

(** [v === s] for a string [s]: true on the same string, false on every
    other value. Identifiers are strings ([generateId], the default
    categories and relationship types), so every strict comparison of the
    program has a string on one side. *)
Definition strict_eq_str (v : value) (s : string) : bool :=
  match v with
  | VStr t => String.eqb t s
  | _ => false
  end.

(** The receiver of [filter], [map], [some] and of an array spread: any
    value but an array has no such method (a TypeError). *)
Definition as_array (v : value) : option (list value) :=
  match v with
  | VArr l => Some l
  | _ => None
  end.

(** Array.prototype.filter, with a callback that may throw. *)
Fixpoint Array_filter (f : value -> option bool) (l : list value)
  : option (list value) :=
  match l with
  | [] => Some []
  | x :: l' =>
      match f x with
      | None => None
      | Some b =>
          match Array_filter f l' with
          | None => None
          | Some r => Some (if b then x :: r else r)
          end
      end
  end.

(** Array.prototype.map. *)
Fixpoint Array_map (f : value -> option value) (l : list value)
  : option (list value) :=
  match l with
  | [] => Some []
  | x :: l' =>
      match f x with
      | None => None
      | Some y =>
          match Array_map f l' with
          | None => None
          | Some r => Some (y :: r)
          end
      end
  end.

(** Array.prototype.some: stops at the first element the callback
    accepts, so the elements after it are never visited. *)
Fixpoint Array_some (f : value -> option bool) (l : list value)
  : option bool :=
  match l with
  | [] => Some false
  | x :: l' =>
      match f x with
      | None => None
      | Some true => Some true
      | Some false => Array_some f l'
      end
  end.

(** Array.prototype.find: the first element the callback accepts, or
    undefined. *)
Fixpoint Array_find (f : value -> option bool) (l : list value)
  : option value :=
  match l with
  | [] => Some VUndefined
  | x :: l' =>
      match f x with
      | None => None
      | Some true => Some x
      | Some false => Array_find f l'
      end
  end.

(** [{...o, k: v}] on the property list of [o]: an existing key keeps its
    place and takes the new value, a new key goes last. *)
Fixpoint set_prop (k : string) (v : value) (ps : list (string * value))
  : list (string * value) :=
  match ps with
  | [] => [(k, v)]
  | (k', v') :: ps' =>
      if String.eqb k' k then (k, v) :: ps' else (k', v') :: set_prop k v ps'
  end.

(** [{...o, ...u}]. *)
Definition merge (ps us : list (string * value)) : list (string * value) :=
  fold_left (fun acc kv => set_prop (fst kv) (snd kv) acc) us ps.

(** The properties a spread [...v] copies. Null, undefined, booleans and
    numbers have none. Strings and arrays would contribute their indices,
    but the program spreads a value only next to a successful read of one
    of its object properties, which strings and arrays do not pass. *)
Definition own_props (v : value) : list (string * value) :=
  match v with
  | VObj ps => ps
  | _ => []
  end.

(** String.prototype.substr(start, length) for non-negative arguments. *)
Definition substr (start len : nat) (s : string) : string :=
  String.substring start len s.

(** A string in a condition: only the empty string is falsy. *)
Definition truthy_str (s : string) : bool :=
  match s with
  | EmptyString => false
  | String _ _ => true
  end.

(** ToBoolean: undefined, null, false, zero, NaN and the empty string are
    falsy. *)
Definition truthy (v : value) : bool :=
  match v with
  | VUndefined | VNull => false
  | VBool b => b
  | VNum n => negb (PrimFloat.eqb n 0 || PrimFloat.is_nan n)
  | VStr s => truthy_str s
  | VArr _ | VObj _ => true
  end.

End JS.

Import JS.

Notation "'try!' x ':=' e 'in' k" :=
  (match e with Some x => k | None => None end)
  (at level 10, x name, e at level 200, k at level 200, only parsing).

(** ** Default data (lines 5-19) *)

Definition DEFAULT_CATEGORIES : value :=
  VArr
    [ VObj [("id", VStr "ui"); ("name", VStr "UI"); ("color", VStr "#60a5fa")];
      VObj [("id", VStr "mechanics"); ("name", VStr "Mechanics");
            ("color", VStr "#f472b6")];
      VObj [("id", VStr "data"); ("name", VStr "Data"); ("color", VStr "#4ade80")];
      VObj [("id", VStr "core"); ("name", VStr "Core"); ("color", VStr "#fbbf24")] ].

Definition DEFAULT_RELATIONSHIP_TYPES : value :=
  VArr
    [ VObj [("id", VStr "depends-on"); ("name", VStr "depends on");
            ("color", VStr "#94a3b8"); ("dashed", VBool false)];
      VObj [("id", VStr "part-of"); ("name", VStr "part of");
            ("color", VStr "#a78bfa"); ("dashed", VBool true)];
      VObj [("id", VStr "related-to"); ("name", VStr "related to");
            ("color", VStr "#67e8f9"); ("dashed", VBool true)] ].

Definition STORAGE_KEY : string := "item-web-builder-data".

(** The object [loadData] returns when nothing usable is stored. *)
Definition default_data : value :=
  VObj [ ("items", VArr []);
         ("connections", VArr []);
         ("categories", DEFAULT_CATEGORIES);
         ("relationshipTypes", DEFAULT_RELATIONSHIP_TYPES) ].

(** ** Persistence adapter (lines 21-44)

    The browser is a parameter: a store with [getItem] and [setItem], either
    of which may throw ([None]), and the JSON codec. JSON.stringify returns
    undefined ([None]) on a value that has no JSON text; JSON.parse throws
    ([None]) on a text that is not JSON. *)

Section Persistence.

Variable Storage : Type.
Variable getItem : Storage -> string -> option (option string).
Variable setItem : Storage -> string -> string -> option Storage.
Variable JSON_parse : string -> option value.
Variable JSON_stringify : value -> option string.

(** The string [setItem] stores for its second argument. *)
Definition ToString_opt (r : option string) : string :=
  match r with
  | Some s => s
  | None => "undefined"
  end.

Definition loadData (ls : Storage) : value :=
  match getItem ls STORAGE_KEY with
  | Some (Some saved) =>
      if truthy_str saved then
        match JSON_parse saved with
        | Some v => v
        | None => default_data
        end
      else default_data
  | Some None => default_data
  | None => default_data
  end.

(** The store after [saveData data]: a throwing [setItem] is caught and
    logged, and the store stays as it was. *)
Definition saveData (data : value) (ls : Storage) : Storage :=
  match setItem ls STORAGE_KEY (ToString_opt (JSON_stringify data)) with
  | Some ls' => ls'
  | None => ls
  end.

End Persistence.

Arguments loadData {Storage} getItem JSON_parse ls.
Arguments saveData {Storage} setItem JSON_stringify data ls.

(** ** Component state (lines 52-63)

    The pieces of React state the modelled handlers read or write.
    [alerts] records the calls of [alert], oldest first. *)

Record State : Type := mkState {
  data : value;
  selectedItem : option value;
  connectingFrom : option value;
  showNewConnectionModal : bool;
  pendingConnection : option (value * value);
  alerts : list string
}.

Definition setData (d : value) (st : State) : State :=
  mkState d (selectedItem st) (connectingFrom st)
          (showNewConnectionModal st) (pendingConnection st) (alerts st).

Definition setSelectedItem (x : option value) (st : State) : State :=
  mkState (data st) x (connectingFrom st)
          (showNewConnectionModal st) (pendingConnection st) (alerts st).

Definition setConnectingFrom (x : option value) (st : State) : State :=
  mkState (data st) (selectedItem st) x
          (showNewConnectionModal st) (pendingConnection st) (alerts st).

Definition setShowNewConnectionModal (b : bool) (st : State) : State :=
  mkState (data st) (selectedItem st) (connectingFrom st)
          b (pendingConnection st) (alerts st).

Definition setPendingConnection (x : option (value * value)) (st : State)
  : State :=
  mkState (data st) (selectedItem st) (connectingFrom st)
          (showNewConnectionModal st) x (alerts st).

Definition alert (msg : string) (st : State) : State :=
  mkState (data st) (selectedItem st) (connectingFrom st)
          (showNewConnectionModal st) (pendingConnection st)
          (alerts st ++ [msg]).

(** [{...prev, k: v}]. *)
Definition with_prop (prev : value) (k : string) (v : value) : value :=
  VObj (set_prop k v (own_props prev)).

(** ** Delete item (lines 316-325)

    A state updater runs on the current state, [prev]; the handlers that
    read [data] directly read the same value. *)

Definition keeps_item (itemId : string) (i : value) : option bool :=
  try! id := get "id" i in
  Some (negb (strict_eq_str id itemId)).

Definition keeps_connection (itemId : string) (c : value) : option bool :=
  try! s := get "sourceId" c in
  try! t := get "targetId" c in
  Some (negb (strict_eq_str s itemId) && negb (strict_eq_str t itemId)).

Definition deleteItem (itemId : string) (st : State) : option State :=
  let prev := data st in
  try! prev_items := get "items" prev in
  try! its := as_array prev_items in
  try! its' := Array_filter (keeps_item itemId) its in
  try! prev_conns := get "connections" prev in
  try! cs := as_array prev_conns in
  try! cs' := Array_filter (keeps_connection itemId) cs in
  Some (setSelectedItem None
          (setData (with_prop (with_prop prev "items" (VArr its'))
                              "connections" (VArr cs')) st)).

(** ** Update and delete category (lines 377-396) *)

Definition update_where (id : string) (updates : list (string * value))
  (c : value) : option value :=
  try! cid := get "id" c in
  Some (if strict_eq_str cid id then VObj (merge (own_props c) updates)
        else c).

Definition updateCategory (catId : string) (updates : list (string * value))
  (st : State) : option State :=
  let prev := data st in
  try! cats := get "categories" prev in
  try! cs := as_array cats in
  try! cs' := Array_map (update_where catId updates) cs in
  Some (setData (with_prop prev "categories" (VArr cs')) st).

Definition in_category (catId : string) (i : value) : option bool :=
  try! c := get "category" i in
  Some (strict_eq_str c catId).

Definition is_not (id : string) (c : value) : option bool :=
  try! cid := get "id" c in
  Some (negb (strict_eq_str cid id)).

Definition category_in_use : string :=
  "Cannot delete category that has items. Reassign items first.".

Definition deleteCategory (catId : string) (st : State) : option State :=
  try! items := get "items" (data st) in
  try! its := as_array items in
  try! used := Array_some (in_category catId) its in
  if used then Some (alert category_in_use st)
  else
    let prev := data st in
    try! cats := get "categories" prev in
    try! cs := as_array cats in
    try! cs' := Array_filter (is_not catId) cs in
    Some (setData (with_prop prev "categories" (VArr cs')) st).

(** ** Update relationship type (lines 414-421) *)

Definition updateRelationshipType (relId : string)
  (updates : list (string * value)) (st : State) : option State :=
  let prev := data st in
  try! rels := get "relationshipTypes" prev in
  try! rs := as_array rels in
  try! rs' := Array_map (update_where relId updates) rs in
  Some (setData (with_prop prev "relationshipTypes" (VArr rs')) st).

(** ** Delete relationship type (lines 424-433) *)

Definition of_type (relId : string) (c : value) : option bool :=
  try! t := get "relationshipType" c in
  Some (strict_eq_str t relId).

Definition relationship_type_in_use : string :=
  "Cannot delete relationship type that is in use.".

Definition deleteRelationshipType (relId : string) (st : State)
  : option State :=
  try! conns := get "connections" (data st) in
  try! cs := as_array conns in
  try! used := Array_some (of_type relId) cs in
  if used then Some (alert relationship_type_in_use st)
  else
    let prev := data st in
    try! rels := get "relationshipTypes" prev in
    try! rs := as_array rels in
    try! rs' := Array_filter (is_not relId) rs in
    Some (setData (with_prop prev "relationshipTypes" (VArr rs')) st).

(** ** Lookup helpers (lines 465-474) *)

Definition is_id (id : string) (c : value) : option bool :=
  try! cid := get "id" c in
  Some (strict_eq_str cid id).

Definition unknown_category : value :=
  VObj [("name", VStr "Unknown"); ("color", VStr "#666")].

Definition unknown_relationship_type : value :=
  VObj [("name", VStr "unknown"); ("color", VStr "#666");
        ("dashed", VBool false)].

(** [found || fallback]. *)
Definition or_else (found fallback : value) : value :=
  if truthy found then found else fallback.

Definition getCategory (catId : string) (d : value) : option value :=
  try! cats := get "categories" d in
  try! cs := as_array cats in
  try! found := Array_find (is_id catId) cs in
  Some (or_else found unknown_category).

Definition getRelType (relId : string) (d : value) : option value :=
  try! rels := get "relationshipTypes" d in
  try! rs := as_array rels in
  try! found := Array_find (is_id relId) rs in
  Some (or_else found unknown_relationship_type).

(** ** The handlers that call into the engine

    The two conversions of a number to text are the engine's:
    [Number_toString] is the decimal text a template literal inserts,
    [Number_toString36] is [toString(36)]; [JSON_parse] is as above. *)

Section Engine_calls.

Variable Number_toString : number -> string.
Variable Number_toString36 : number -> string.
Variable JSON_parse : string -> option value.

(** *** Identifier generator (lines 47-49)

    [now] and [rnd] are the numbers the calls Date.now() and Math.random()
    return. *)

Definition generateId (now rnd : number) : string :=
  Number_toString now ++ "-" ++ substr 2 9 (Number_toString36 rnd).

(** *** Add connection (lines 328-351) *)

Definition joins (sourceId targetId : string) (c : value) : option bool :=
  try! s := get "sourceId" c in
  try! t := get "targetId" c in
  Some ((strict_eq_str s sourceId && strict_eq_str t targetId)
        || (strict_eq_str s targetId && strict_eq_str t sourceId)).

Definition newConnection (id sourceId targetId relationshipType : string)
  (bidirectional : bool) : value :=
  VObj [ ("id", VStr id);
         ("sourceId", VStr sourceId);
         ("targetId", VStr targetId);
         ("relationshipType", VStr relationshipType);
         ("bidirectional", VBool bidirectional) ].

Definition addConnection (now rnd : number)
  (sourceId targetId relationshipType : string) (bidirectional : bool)
  (st : State) : option State :=
  try! conns := get "connections" (data st) in
  try! cs := as_array conns in
  try! exists_ := Array_some (joins sourceId targetId) cs in
  if exists_ then Some st
  else
    let c := newConnection (generateId now rnd) sourceId targetId
                           relationshipType bidirectional in
    Some (setConnectingFrom None
            (setPendingConnection None
               (setShowNewConnectionModal false
                  (setData (with_prop (data st) "connections"
                                      (VArr (cs ++ [c]))) st)))).

(** *** The Connect button of the New Connection dialog (lines 1614-1618,
    1793)

    [onSubmit(relType, bidirectional)] calls [addConnection] on the ids of
    the two items of the draft. The dialog is rendered only while there is
    a draft; without one the read of [pendingConnection.source] throws.
    The items of a draft are items of [data], whose ids are strings (see
    [strict_eq_str]); the model goes no further than that. *)

Definition id_of (item : value) : option string :=
  match get "id" item with
  | Some (VStr s) => Some s
  | _ => None
  end.

Definition onSubmit (now rnd : number) (relType : string)
  (bidirectional : bool) (st : State) : option State :=
  match pendingConnection st with
  | None => None
  | Some (source, target) =>
      try! sourceId := id_of source in
      try! targetId := id_of target in
      addConnection now rnd sourceId targetId relType bidirectional st
  end.

(** *** Import (lines 449-462)

    [file] is the text of the chosen file, [None] when the picker was
    closed without one. *)

Definition import_failed : string := "Failed to import data: Invalid JSON".

Definition importData (file : option string) (st : State) : State :=
  match file with
  | None => st
  | Some text =>
      match JSON_parse text with
      | Some imported => setData imported st
      | None => alert import_failed st
      end
  end.

End Engine_calls.

(** ** Arrow geometry (lines 477-516)

    Numbers are doubles, so the arithmetic is that of binary64; Math.sqrt
    is the correctly rounded square root. Math.atan2, Math.cos and Math.sin
    are the engine's, and so is the text a template literal inserts for a
    number. *)

Section Geometry.

Variable Number_toString : number -> string.
Variable Math_atan2 : number -> number -> number.
Variable Math_cos : number -> number.
Variable Math_sin : number -> number.

(** Math.PI, the double nearest to pi. *)
Definition Math_PI : number := 0x1.921fb54442d18p+1%float.
Definition Math_sqrt (x : number) : number := PrimFloat.sqrt x.

Record ArrowPath : Type := mkArrowPath {
  linePath : string;
  arrowPath : string;
  reverseArrowPath : string
}.

Local Open Scope float_scope.

Definition getArrowPath (x1 y1 x2 y2 : number) (bidirectional : bool)
  : ArrowPath :=
  let dx := x2 - x1 in
  let dy := y2 - y1 in
  let len := Math_sqrt (dx * dx + dy * dy) in
  if len =? 0 then mkArrowPath "" "" ""
  else
    let unitX := dx / len in
    let unitY := dy / len in
    let startX := x1 + unitX * 32 in
    let startY := y1 + unitY * 32 in
    let endX := x2 - unitX * 32 in
    let endY := y2 - unitY * 32 in
    let str := Number_toString in
    let linePath :=
      ("M " ++ str startX ++ " " ++ str startY
       ++ " L " ++ str endX ++ " " ++ str endY)%string in
    let arrowSize := 10 in
    let arrowAngle := Math_PI / 6 in
    let angle := Math_atan2 (endY - startY) (endX - startX) in
    let arrow1X := endX - arrowSize * Math_cos (angle - arrowAngle) in
    let arrow1Y := endY - arrowSize * Math_sin (angle - arrowAngle) in
    let arrow2X := endX - arrowSize * Math_cos (angle + arrowAngle) in
    let arrow2Y := endY - arrowSize * Math_sin (angle + arrowAngle) in
    let arrowPath :=
      ("M " ++ str endX ++ " " ++ str endY
       ++ " L " ++ str arrow1X ++ " " ++ str arrow1Y
       ++ " M " ++ str endX ++ " " ++ str endY
       ++ " L " ++ str arrow2X ++ " " ++ str arrow2Y)%string in
    let reverseArrowPath :=
      if bidirectional then
        let revAngle := angle + Math_PI in
        let revArrow1X := startX - arrowSize * Math_cos (revAngle - arrowAngle) in
        let revArrow1Y := startY - arrowSize * Math_sin (revAngle - arrowAngle) in
        let revArrow2X := startX - arrowSize * Math_cos (revAngle + arrowAngle) in
        let revArrow2Y := startY - arrowSize * Math_sin (revAngle + arrowAngle) in
        ("M " ++ str startX ++ " " ++ str startY
         ++ " L " ++ str revArrow1X ++ " " ++ str revArrow1Y
         ++ " M " ++ str startX ++ " " ++ str startY
         ++ " L " ++ str revArrow2X ++ " " ++ str revArrow2Y)%string
      else ""%string in
    mkArrowPath linePath arrowPath reverseArrowPath.

End Geometry.

(** * A reference engine

    One browser to run the model on: the conversions of numbers to text
    (Number::toString of ECMA-262, and its radix form), the Math functions,
    the JSON codec and a web storage with a quota. *)

Module Engine.

Local Open Scope Z_scope.

(** *** Numbers to text

    The double nearest to [n / d], ties to even. *)
Definition nearest (n d : positive) : float :=
  SF2Prim (SFdiv prec emax (S754_finite false n 0) (S754_finite false d 0)).

(** [x * r^j] for a fraction [x = n / d] and any integer [j]. *)
Definition scale (r : Z) (j : Z) (nd : Z * Z) : Z * Z :=
  let (n, d) := nd in
  if 0 <=? j then (n * r ^ j, d) else (n, d * r ^ (- j)).

(** The number of radix-[r] digits of [q >= 1]. *)
Fixpoint int_digits (fuel : nat) (r q : Z) : Z :=
  match fuel with
  | O => 1
  | S f => if q <? r then 1 else 1 + int_digits f r (q / r)
  end.

(** For [0 < n / d < 1], the least [j >= 1] with [n * r^j >= d]. *)
Fixpoint lead_zeros (fuel : nat) (r n d j : Z) : Z :=
  match fuel with
  | O => j
  | S f => if d <=? n * r then j else lead_zeros f r (n * r) d (j + 1)
  end.

(** The [n] with [r^(n-1) <= x < r^n]. *)
Definition magnitude (r : Z) (nd : Z * Z) : Z :=
  let (n, d) := nd in
  if d <=? n then int_digits 1100 r (n / d)
  else 1 - lead_zeros 1100 r n d 1.

(** Does [s * r^j] round to [x]? *)
Definition rounds_to (r : Z) (x : float) (s j : Z) : bool :=
  match scale r j (s, 1) with
  | (Zpos n, Zpos d) => PrimFloat.Leibniz.eqb (nearest n d) x
  | _ => false
  end.

(** The digits [s], their count [k] and the exponent [n] of the shortest
    radix-[r] numeral [s * r^(n-k)] that reads back as [x]. *)
Fixpoint shortest (fuel : nat) (r : Z) (x : float) (nd : Z * Z) (n k : Z)
  : Z * Z * Z :=
  match fuel with
  | O => (0, 1, n)
  | S f =>
      let (tn, td) := scale r (k - n) nd in
      let lo := tn / td in
      let hi := lo + 1 in
      let ok_lo := rounds_to r x lo (n - k) in
      let ok_hi := rounds_to r x hi (n - k) in
      let closer_lo :=
        let dl := tn - lo * td in
        let dh := hi * td - tn in
        (dl <? dh) || ((dl =? dh) && Z.even lo) in
      if ok_lo && (negb ok_hi || closer_lo) then (lo, k, n)
      else if ok_hi then
        if hi =? r ^ k then (1, 1, n + 1) else (hi, k, n)
      else shortest f r x nd n (k + 1)
  end.

(** The digits 0 to 9 and a to z. *)
Definition digit_char (d : Z) : ascii :=
  if d <? 10 then ascii_of_nat (48 + Z.to_nat d)
  else ascii_of_nat (87 + Z.to_nat d).

(** The [k] radix-[r] digits of [s], most significant first. *)
Fixpoint digits (k : nat) (r s : Z) (acc : string) : string :=
  match k with
  | O => acc
  | S k' => digits k' r (s / r) (String (digit_char (s mod r)) acc)
  end.

Fixpoint zeros (n : nat) : string :=
  match n with
  | O => ""
  | S n' => String "0" (zeros n')
  end.

(** The decimal digits of a non-negative integer. *)
Definition decimal (n : Z) : string :=
  digits (Z.to_nat (int_digits 400 10 n)) 10 n "".

(** [m * 2^e] as a fraction. *)
Definition fraction_of (m : positive) (e : Z) : Z * Z :=
  if 0 <=? e then (Zpos m * 2 ^ e, 1) else (Zpos m, 2 ^ (- e)).

Local Open Scope string_scope.

(** Number::toString(x), radix 10, of a positive finite [x]. *)
Definition positive_toString (x : float) (m : positive) (e : Z) : string :=
  let nd := fraction_of m e in
  let '(s, k, n) := shortest 20 10 x nd (magnitude 10 nd) 1 in
  let ds := digits (Z.to_nat k) 10 s "" in
  if ((k <=? n) && (n <=? 21))%Z then ds ++ zeros (Z.to_nat (n - k))
  else if ((0 <? n) && (n <=? 21))%Z then
    substring 0 (Z.to_nat n) ds ++ "."
    ++ substring (Z.to_nat n) (Z.to_nat (k - n)) ds
  else if ((-6 <? n) && (n <=? 0))%Z then
    "0." ++ zeros (Z.to_nat (- n)) ++ ds
  else
    let e' := (n - 1)%Z in
    let sign := if (0 <=? e')%Z then "+" else "-" in
    (if (k =? 1)%Z then ds
     else substring 0 1 ds ++ "." ++ substring 1 (Z.to_nat (k - 1)) ds)
    ++ "e" ++ sign ++ decimal (Z.abs e').

(** Number::toString(x), radix 10. *)
Definition Number_toString (x : float) : string :=
  match Prim2SF x with
  | S754_nan => "NaN"
  | S754_zero _ => "0"
  | S754_infinity false => "Infinity"
  | S754_infinity true => "-Infinity"
  | S754_finite false m e => positive_toString x m e
  | S754_finite true m e => "-" ++ positive_toString (- x)%float m e
  end.

(** The positional numeral of [toString(radix)]: no exponent part. *)
Definition positive_toString_radix (r : Z) (x : float) (m : positive) (e : Z)
  : string :=
  let nd := fraction_of m e in
  let '(s, k, n) := shortest 60 r x nd (magnitude r nd) 1 in
  let ds := digits (Z.to_nat k) r s "" in
  if (k <=? n)%Z then ds ++ zeros (Z.to_nat (n - k))
  else if (0 <? n)%Z then
    substring 0 (Z.to_nat n) ds ++ "."
    ++ substring (Z.to_nat n) (Z.to_nat (k - n)) ds
  else "0." ++ zeros (Z.to_nat (- n)) ++ ds.

Definition Number_toString_radix (r : Z) (x : float) : string :=
  match Prim2SF x with
  | S754_nan => "NaN"
  | S754_zero _ => "0"
  | S754_infinity false => "Infinity"
  | S754_infinity true => "-Infinity"
  | S754_finite false m e => positive_toString_radix r x m e
  | S754_finite true m e => "-" ++ positive_toString_radix r (- x)%float m e
  end.

(** [toString(36)]. *)
Definition Number_toString36 : float -> string := Number_toString_radix 36.

Local Open Scope Z_scope.

(** *** Math.cos, Math.sin, Math.atan2

    ECMA-262 leaves their results implementation-approximated. This engine
    computes them in fixed point, with [fx_bits] fractional bits, and
    rounds to the nearest double. An argument of [cos] or [sin] is first
    reduced by a multiple of two pi, with [wide_bits] fractional bits, since
    a double may be as large as [2 ^ 1024]. *)

Definition fx_bits : Z := 256.
Definition wide_bits : Z := 1400.
Definition fx_one : Z := 2 ^ fx_bits.
Definition fx_mul (a b : Z) : Z := (a * b) / fx_one.
Definition fx_div (a b : Z) : Z := (a * fx_one) / b.

(** The double nearest to [a / 2 ^ bits]. *)
Definition round_fixed (bits : Z) (a : Z) : float :=
  match a with
  | Z0 => 0%float
  | Zpos p => nearest p (Z.to_pos (2 ^ bits))
  | Zneg p => (- nearest p (Z.to_pos (2 ^ bits)))%float
  end.

Definition fx_round : Z -> float := round_fixed fx_bits.

(** [atan (1 / k)] by its Taylor series. *)
Fixpoint atan_inv (fuel : nat) (k : Z) (term : Z) (i : Z) (acc : Z) : Z :=
  match fuel with
  | O => acc
  | S f =>
      if term =? 0 then acc
      else atan_inv f k (- (term / (k * k))) (i + 2) (acc + term / i)
  end.

(** Pi by Machin's formula, with [wide_bits] fractional bits. *)
Definition wide_pi : Z :=
  Eval vm_compute in
    (let one := 2 ^ (wide_bits + 32) in
     (16 * atan_inv 2000 5 (one / 5) 1 0
      - 4 * atan_inv 2000 239 (one / 239) 1 0) / 2 ^ 32).

Definition fx_pi : Z := wide_pi / 2 ^ (wide_bits - fx_bits).

(** The sum [t - t r^2 / ((k+1)(k+2)) + ...]. *)
Fixpoint alternating (fuel : nat) (r2 : Z) (term : Z) (k : Z) (acc : Z) : Z :=
  match fuel with
  | O => acc
  | S f =>
      if term =? 0 then acc
      else alternating f r2 (- (fx_mul term r2 / ((k + 1) * (k + 2))))
             (k + 2) (acc + term)
  end.

Definition fx_cos (r : Z) : Z := alternating 200 (fx_mul r r) fx_one 0 0.
Definition fx_sin (r : Z) : Z := alternating 200 (fx_mul r r) r 1 0.

(** A finite double brought into the interval from [- pi] to [pi], with
    [wide_bits] fractional bits. *)
Definition reduce (s : bool) (m : positive) (e : Z) : Z :=
  let a := Zpos m * 2 ^ (e + wide_bits) in
  let t := (if s then - a else a) mod (2 * wide_pi) in
  if wide_pi <? t then t - 2 * wide_pi else t.

Definition narrow (r : Z) : Z := r / 2 ^ (wide_bits - fx_bits).

Definition Math_cos (x : float) : float :=
  match Prim2SF x with
  | S754_zero _ => 1%float
  | S754_finite s m e => fx_round (fx_cos (narrow (reduce s m e)))
  | _ => nan
  end.

(** Below [2 ^ -64] the sine of [r] rounds as [r] does. *)
Definition Math_sin (x : float) : float :=
  match Prim2SF x with
  | S754_zero _ => x
  | S754_finite s m e =>
      let r := reduce s m e in
      if Z.abs r <? 2 ^ (wide_bits - 64) then round_fixed wide_bits r
      else fx_round (fx_sin (narrow r))
  | _ => nan
  end.

(** [atan u] for [0 <= u <= 1], by Euler's series. *)
Fixpoint euler (fuel : nat) (w : Z) (term : Z) (n : Z) (acc : Z) : Z :=
  match fuel with
  | O => acc
  | S f =>
      if term =? 0 then acc
      else euler f w (fx_mul term w * (2 * n + 2) / (2 * n + 3)) (n + 1)
             (acc + term)
  end.

Definition fx_atan_unit (u : Z) : Z :=
  let d := fx_one + fx_mul u u in
  euler 600 (fx_div (fx_mul u u) d) (fx_div u d) 0 0.

(** [atan (a / b)] for positive integers [a] and [b]. *)
Definition fx_atan_ratio (a b : Z) : Z :=
  if a <=? b then fx_atan_unit (a * fx_one / b)
  else fx_pi / 2 - fx_atan_unit (b * fx_one / a).

(** The quotient of two finite non-zero doubles as a ratio of positive
    integers. *)
Definition ratio (my : positive) (ey : Z) (mx : positive) (ex : Z) : Z * Z :=
  let e := Z.min ey ex in
  (Zpos my * 2 ^ (ey - e), Zpos mx * 2 ^ (ex - e)).

Definition signed (s : bool) (x : float) : float :=
  if s then (- x)%float else x.

(** Below [2 ^ -64] the arc tangent of [u] rounds as [u] does. *)
Definition Math_atan2 (y x : float) : float :=
  let pi := fx_round fx_pi in
  let pi_2 := fx_round (fx_pi / 2) in
  let pi_4 := fx_round (fx_pi / 4) in
  let pi_3_4 := fx_round (3 * fx_pi / 4) in
  match Prim2SF y, Prim2SF x with
  | S754_nan, _ | _, S754_nan => nan
  | S754_zero sy, (S754_zero sx | S754_finite sx _ _ | S754_infinity sx) =>
      signed sy (if sx then pi else 0%float)
  | (S754_finite sy _ _ | S754_infinity sy), S754_zero _ => signed sy pi_2
  | S754_infinity sy, S754_finite _ _ _ => signed sy pi_2
  | S754_infinity sy, S754_infinity sx =>
      signed sy (if sx then pi_3_4 else pi_4)
  | S754_finite sy _ _, S754_infinity sx =>
      signed sy (if sx then pi else 0%float)
  | S754_finite sy my ey, S754_finite sx mx ex =>
      let (a, b) := ratio my ey mx ex in
      if negb sx && (a * 2 ^ 64 <? b) then
        signed sy (nearest (Z.to_pos a) (Z.to_pos b))
      else
        let t := fx_atan_ratio a b in
        signed sy (fx_round (if sx then fx_pi - t else t))
  end.

(** *** JSON text

    Strings are sequences of code units below 256; an escape [\uXXXX] of a
    larger one is outside the model. Property names that are array
    indices, which an engine enumerates first, are outside it as well. *)

Local Close Scope Z_scope.

Definition dquote : ascii := "034"%char.
Definition backslash : ascii := "092"%char.

Definition hex2 (n : nat) : string :=
  String (digit_char (Z.of_nat (n / 16)))
    (String (digit_char (Z.of_nat (n mod 16))) "").

(** QuoteJSONString, one code unit. *)
Definition quote_unit (c : ascii) : string :=
  let n := nat_of_ascii c in
  if Nat.eqb n 8 then String backslash "b"
  else if Nat.eqb n 9 then String backslash "t"
  else if Nat.eqb n 10 then String backslash "n"
  else if Nat.eqb n 12 then String backslash "f"
  else if Nat.eqb n 13 then String backslash "r"
  else if Nat.eqb n 34 then String backslash (String dquote "")
  else if Nat.eqb n 92 then String backslash (String backslash "")
  else if Nat.ltb n 32 then String backslash ("u00" ++ hex2 n)
  else String c "".

Fixpoint quote_units (s : string) : string :=
  match s with
  | EmptyString => ""
  | String c s' => quote_unit c ++ quote_units s'
  end.

Definition quote (s : string) : string :=
  String dquote (quote_units s ++ String dquote "").

Fixpoint join (sep : string) (l : list string) : string :=
  match l with
  | [] => ""
  | [x] => x
  | x :: l' => x ++ sep ++ join sep l'
  end.

(** SerializeJSONProperty without indentation; [None] is undefined. An
    undefined array element is written null, an undefined property is left
    out, a number that is not finite is written null. *)
Fixpoint serialize (v : value) : option string :=
  match v with
  | VUndefined => None
  | VNull => Some "null"
  | VBool true => Some "true"
  | VBool false => Some "false"
  | VNum n => Some (if is_finite n then Number_toString n else "null")
  | VStr s => Some (quote s)
  | VArr l =>
      Some ("[" ++ join ","
                     (map (fun x => match serialize x with
                                    | Some t => t
                                    | None => "null"
                                    end) l)
                ++ "]")
  | VObj ps =>
      Some ("{" ++ join ","
                     (flat_map (fun kx => match serialize (snd kx) with
                                          | Some t => [quote (fst kx) ++ ":" ++ t]
                                          | None => []
                                          end) ps)
                ++ "}")
  end.

Definition JSON_stringify (v : value) : option string := serialize v.

Definition is_ws (c : ascii) : bool :=
  let n := nat_of_ascii c in
  Nat.eqb n 32 || Nat.eqb n 9 || Nat.eqb n 10 || Nat.eqb n 13.

Fixpoint skip_ws (s : string) : string :=
  match s with
  | String c s' => if is_ws c then skip_ws s' else s
  | EmptyString => s
  end.

Fixpoint strip_prefix (p s : string) : option string :=
  match p, s with
  | EmptyString, _ => Some s
  | String a p', String b s' => if Ascii.eqb a b then strip_prefix p' s' else None
  | String _ _, EmptyString => None
  end.

Definition digit_value (c : ascii) : option Z :=
  let n := nat_of_ascii c in
  if Nat.leb 48 n && Nat.leb n 57 then Some (Z.of_nat (n - 48)) else None.

Definition hex_value (c : ascii) : option nat :=
  let n := nat_of_ascii c in
  if Nat.leb 48 n && Nat.leb n 57 then Some (n - 48)
  else if Nat.leb 97 n && Nat.leb n 102 then Some (n - 87)
  else if Nat.leb 65 n && Nat.leb n 70 then Some (n - 55)
  else None.

(** The code unit an escape [\uXXXX] names, and the text after it. *)
Definition parse_hex4 (s : string) : option (nat * string) :=
  match s with
  | String a (String b (String c (String d rest))) =>
      match hex_value a, hex_value b, hex_value c, hex_value d with
      | Some x, Some y, Some z, Some w =>
          Some (((x * 16 + y) * 16 + z) * 16 + w, rest)
      | _, _, _, _ => None
      end
  | _ => None
  end.

Definition unescape (c : ascii) : option ascii :=
  let n := nat_of_ascii c in
  if Nat.eqb n 34 || Nat.eqb n 92 || Nat.eqb n 47 then Some c
  else if Nat.eqb n 98 then Some (ascii_of_nat 8)
  else if Nat.eqb n 102 then Some (ascii_of_nat 12)
  else if Nat.eqb n 110 then Some (ascii_of_nat 10)
  else if Nat.eqb n 114 then Some (ascii_of_nat 13)
  else if Nat.eqb n 116 then Some (ascii_of_nat 9)
  else None.

(** The characters of a string literal after its opening quote, up to
    the closing one. *)
Fixpoint parse_chars (fuel : nat) (s : string) : option (string * string) :=
  match fuel with
  | O => None
  | S f =>
      match s with
      | EmptyString => None
      | String c rest =>
          if Ascii.eqb c dquote then Some ("", rest)
          else if Ascii.eqb c backslash then
            match rest with
            | EmptyString => None
            | String e rest' =>
                match unescape e with
                | Some u =>
                    match parse_chars f rest' with
                    | Some (t, r) => Some (String u t, r)
                    | None => None
                    end
                | None =>
                    if Ascii.eqb e "u" then
                      match parse_hex4 rest' with
                      | Some (n, rest'') =>
                          if Nat.ltb n 256 then
                            match parse_chars f rest'' with
                            | Some (t, r) => Some (String (ascii_of_nat n) t, r)
                            | None => None
                            end
                          else None
                      | None => None
                      end
                    else None
                end
            end
          else if Nat.ltb (nat_of_ascii c) 32 then None
          else
            match parse_chars f rest with
            | Some (t, r) => Some (String c t, r)
            | None => None
            end
      end
  end.

(** A run of decimal digits: its value, its length, the text after. *)
Fixpoint take_digits (s : string) (acc : Z) (count : nat) : Z * nat * string :=
  match s with
  | String c s' =>
      match digit_value c with
      | Some d => take_digits s' (acc * 10 + d)%Z (S count)
      | None => (acc, count, s)
      end
  | EmptyString => (acc, count, s)
  end.

(** The number a JSON number literal denotes, rounded to a double. *)
Definition number_value (neg : bool) (m : Z) (e : Z) : float :=
  match m with
  | Zpos p =>
      let x := match scale 10 e (Zpos p, 1%Z) with
               | (Zpos n, Zpos d) => nearest n d
               | _ => 0%float
               end in
      if neg then (- x)%float else x
  | _ => if neg then (- 0)%float else 0%float
  end.

Definition parse_number (s : string) : option (float * string) :=
  let (neg, s1) := match strip_prefix "-" s with
                   | Some r => (true, r)
                   | None => (false, s)
                   end in
  let '(i, ni, s2) := take_digits s1 0%Z 0 in
  if Nat.eqb ni 0 then None
  else if Nat.ltb 1 ni && (match s1 with
                           | String c _ => Ascii.eqb c "0"
                           | EmptyString => false
                           end)
  then None
  else
    let frac := match strip_prefix "." s2 with
                | Some r =>
                    let '(m, nf, s3) := take_digits r i 0 in
                    if Nat.eqb nf 0 then None else Some (m, nf, s3)
                | None => Some (i, 0, s2)
                end in
    match frac with
    | None => None
    | Some (m, nf, s3) =>
        let after_e := match s3 with
                       | String c r =>
                           if Ascii.eqb c "e" || Ascii.eqb c "E" then Some r
                           else None
                       | EmptyString => None
                       end in
        match after_e with
        | None => Some (number_value neg m (- Z.of_nat nf)%Z, s3)
        | Some r =>
            let (eneg, r1) := match r with
                              | String c r' =>
                                  if Ascii.eqb c "-" then (true, r')
                                  else if Ascii.eqb c "+" then (false, r')
                                  else (false, r)
                              | EmptyString => (false, r)
                              end in
            let '(e, ne, s4) := take_digits r1 0%Z 0 in
            if Nat.eqb ne 0 then None
            else Some (number_value neg m
                         ((if eneg then - e else e) - Z.of_nat nf)%Z, s4)
        end
    end.

(** JSON value, array elements and object members, by recursive descent.
    A repeated property name keeps its first place and its last value. *)
Fixpoint parse_value (fuel : nat) (s : string) : option (value * string) :=
  match fuel with
  | O => None
  | S f =>
      match skip_ws s with
      | EmptyString => None
      | String c rest as s0 =>
          if Ascii.eqb c "[" then
            match skip_ws rest with
            | EmptyString => None
            | String c' r =>
                if Ascii.eqb c' "]" then Some (VArr [], r)
                else parse_elements f (String c' r) []
            end
          else if Ascii.eqb c "{" then
            match skip_ws rest with
            | EmptyString => None
            | String c' r =>
                if Ascii.eqb c' "}" then Some (VObj [], r)
                else parse_members f (String c' r) []
            end
          else if Ascii.eqb c dquote then
            match parse_chars (String.length rest + 1) rest with
            | Some (t, r) => Some (VStr t, r)
            | None => None
            end
          else
            match strip_prefix "null" s0 with
            | Some r => Some (VNull, r)
            | None =>
                match strip_prefix "true" s0 with
                | Some r => Some (VBool true, r)
                | None =>
                    match strip_prefix "false" s0 with
                    | Some r => Some (VBool false, r)
                    | None =>
                        match parse_number s0 with
                        | Some (x, r) => Some (VNum x, r)
                        | None => None
                        end
                    end
                end
            end
      end
  end
with parse_elements (fuel : nat) (s : string) (acc : list value)
  : option (value * string) :=
  match fuel with
  | O => None
  | S f =>
      match parse_value f s with
      | None => None
      | Some (v, r) =>
          match skip_ws r with
          | EmptyString => None
          | String c r' =>
              if Ascii.eqb c "," then parse_elements f r' (v :: acc)
              else if Ascii.eqb c "]" then Some (VArr (rev (v :: acc)), r')
              else None
          end
      end
  end
with parse_members (fuel : nat) (s : string) (acc : list (string * value))
  : option (value * string) :=
  match fuel with
  | O => None
  | S f =>
      match skip_ws s with
      | EmptyString => None
      | String c rest =>
          if Ascii.eqb c dquote then
            match parse_chars (String.length rest + 1) rest with
            | None => None
            | Some (k, r) =>
                match skip_ws r with
                | EmptyString => None
                | String c1 r1 =>
                    if Ascii.eqb c1 ":" then
                      match parse_value f r1 with
                      | None => None
                      | Some (v, r2) =>
                          match skip_ws r2 with
                          | EmptyString => None
                          | String c2 r3 =>
                              if Ascii.eqb c2 "," then
                                parse_members f r3 (set_prop k v acc)
                              else if Ascii.eqb c2 "}" then
                                Some (VObj (set_prop k v acc), r3)
                              else None
                          end
                      end
                    else None
                end
            end
          else None
      end
  end.

Definition JSON_parse (s : string) : option value :=
  match parse_value (2 * String.length s + 2) s with
  | Some (v, r) =>
      match skip_ws r with
      | EmptyString => Some v
      | String _ _ => None
      end
  | None => None
  end.

(** *** Web storage with a quota

    [setItem] throws when the entries would outgrow the quota, and leaves
    the store as it was. *)

Record LocalStorage : Type := mkLocalStorage {
  entries : list (string * string);
  quota : N
}.

Fixpoint assoc (k : string) (es : list (string * string)) : option string :=
  match es with
  | [] => None
  | (k', v) :: es' => if String.eqb k' k then Some v else assoc k es'
  end.

Fixpoint put (k v : string) (es : list (string * string))
  : list (string * string) :=
  match es with
  | [] => [(k, v)]
  | (k', v') :: es' =>
      if String.eqb k' k then (k, v) :: es' else (k', v') :: put k v es'
  end.

Fixpoint used (es : list (string * string)) : N :=
  match es with
  | [] => 0%N
  | (k, v) :: es' =>
      (N.of_nat (String.length k) + N.of_nat (String.length v) + used es')%N
  end.

Definition getItem (ls : LocalStorage) (k : string) : option (option string) :=
  Some (assoc k (entries ls)).

Definition setItem (ls : LocalStorage) (k v : string) : option LocalStorage :=
  let es := put k v (entries ls) in
  if N.leb (used es) (quota ls) then Some (mkLocalStorage es (quota ls))
  else None.

End Engine.

(** * Vocabulary of the properties *)

(** Every element can be read from: none is null or undefined. *)
Definition readable (l : list value) : Prop :=
  Forall (fun x => nullish x = false) l.

Definition has_id (id : string) (x : value) : bool :=
  strict_eq_str (prop "id" x) id.

Definition touches (itemId : string) (c : value) : bool :=
  strict_eq_str (prop "sourceId" c) itemId
  || strict_eq_str (prop "targetId" c) itemId.

Definition connects (a b : string) (c : value) : bool :=
  (strict_eq_str (prop "sourceId" c) a && strict_eq_str (prop "targetId" c) b)
  || (strict_eq_str (prop "sourceId" c) b
      && strict_eq_str (prop "targetId" c) a).

Definition has_category (catId : string) (i : value) : bool :=
  strict_eq_str (prop "category" i) catId.

Definition has_type (relId : string) (c : value) : bool :=
  strict_eq_str (prop "relationshipType" c) relId.

(** A double that is neither NaN nor an infinity. *)
Definition finite (x : number) : bool :=
  match Prim2SF x with
  | S754_zero _ | S754_finite _ _ _ => true
  | _ => false
  end.

(** ** States that JSON text determines

    The text after a JSON value: the end, or a comma or a closing bracket
    or brace. *)
Definition ends_value (rest : string) : Prop :=
  rest = ""
  \/ exists c r, rest = String c r
                 /\ (c = ","%char \/ c = "]"%char \/ c = "}"%char).

(** A finite number whose decimal text the parser reads back. *)
Definition reads_back (x : number) : Prop :=
  is_finite x = true
  /\ forall rest, ends_value rest ->
       Engine.parse_number (Engine.Number_toString x ++ rest)
       = Some (x, rest).

(** A value that its JSON text determines: nothing undefined inside, every
    number finite and read back from its decimal text, no property name
    twice in an object. Minus zero is no such number: its text is [0]. *)
Fixpoint json_safe (v : value) : Prop :=
  match v with
  | VUndefined => False
  | VNull | VBool _ | VStr _ => True
  | VNum x => reads_back x
  | VArr l => (fix all (l : list value) : Prop :=
                 match l with
                 | [] => True
                 | x :: l' => json_safe x /\ all l'
                 end) l
  | VObj ps => (fix all (ps : list (string * value)) : Prop :=
                  match ps with
                  | [] => True
                  | kx :: ps' => json_safe (snd kx) /\ all ps'
                  end) ps
               /\ NoDup (map fst ps)
  end.

(** Fuel enough for the parser to read a value back: one for the value,
    one more for each element or member, and theirs. *)
Fixpoint json_weight (v : value) : nat :=
  match v with
  | VArr l => S ((fix sum (l : list value) : nat :=
                    match l with
                    | [] => 0
                    | x :: l' => S (json_weight x + sum l')
                    end) l)
  | VObj ps => S ((fix sum (ps : list (string * value)) : nat :=
                     match ps with
                     | [] => 0
                     | kx :: ps' => S (json_weight (snd kx) + sum ps')
                     end) ps)
  | _ => 1
  end.

Definition json_weights (l : list value) : nat :=
  fold_right (fun x n => S (json_weight x + n)) 0 l.

Definition json_member_weights (ps : list (string * value)) : nat :=
  fold_right (fun kx n => S (json_weight (snd kx) + n)) 0 ps.

(** The characters a number literal may start with, and those a JSON
    value may start with. *)
Definition num_start (c : ascii) : bool :=
  Ascii.eqb c "-"
  || (Nat.leb 48 (nat_of_ascii c) && Nat.leb (nat_of_ascii c) 57).

Definition opens (c : ascii) : bool :=
  num_start c || Ascii.eqb c "n" || Ascii.eqb c "t" || Ascii.eqb c "f"
  || Ascii.eqb c Engine.dquote || Ascii.eqb c "[" || Ascii.eqb c "{".

(** The text [JSON.stringify] writes for a value inside an array, and for
    a member of an object. *)
Definition json_text (v : value) : string :=
  match Engine.serialize v with
  | Some t => t
  | None => "null"
  end.

Definition json_member (kx : string * value) : string :=
  Engine.quote (fst kx) ++ ":" ++ json_text (snd kx).

(** The parser, given fuel, reads a value back from its text, whatever
    follows it. *)
Definition reads_as_written (v : value) : Prop :=
  json_safe v ->
  forall fuel rest,
    json_weight v <= fuel -> ends_value rest ->
    Engine.parse_value fuel (json_text v ++ rest) = Some (v, rest).

(** ** Sample states

    Three items A, B and C and the connections A to B, C to A and B to C,
    over the default categories and relationship types. *)

(** An item as [addItem] builds it (lines 301-307). *)
Definition sample_item (id name category : string) (x y : number) : value :=
  VObj [ ("id", VStr id); ("name", VStr name); ("category", VStr category);
         ("x", VNum x); ("y", VNum y) ].

Definition item_A : value :=
  sample_item "A" "Login" "ui" 412.5%float 150%float.
Definition item_B : value :=
  sample_item "B" "Session" "data" 540.25%float (-3.25)%float.
Definition item_C : value :=
  sample_item "C" "Router" "mechanics" 250%float 300%float.

Definition conn_AB : value := newConnection "c1" "A" "B" "depends-on" false.
Definition conn_CA : value := newConnection "c2" "C" "A" "part-of" true.
Definition conn_BC : value := newConnection "c3" "B" "C" "related-to" false.

Definition sample_data : value :=
  VObj [ ("items", VArr [item_A; item_B; item_C]);
         ("connections", VArr [conn_AB; conn_CA; conn_BC]);
         ("categories", DEFAULT_CATEGORIES);
         ("relationshipTypes", DEFAULT_RELATIONSHIP_TYPES) ].

Definition sample_state : State :=
  mkState sample_data None None false None [].

(** The New Connection dialog, open on the draft from A to B. *)
Definition dialog_state : State :=
  mkState sample_data None (Some item_A) true (Some (item_A, item_B)) [].

(** An item whose position is not a finite number. *)
Definition stray_data : value :=
  VObj [ ("items", VArr [sample_item "A" "Login" "ui" infinity 150%float]);
         ("connections", VArr []);
         ("categories", DEFAULT_CATEGORIES);
         ("relationshipTypes", DEFAULT_RELATIONSHIP_TYPES) ].

(** An empty store with room for five million characters. *)
Definition roomy_storage : Engine.LocalStorage :=
  Engine.mkLocalStorage [] 5000000%N.

(** A store with room for 64 characters, fewer than the text of
    [sample_data]. *)
Definition full_storage : Engine.LocalStorage :=
  Engine.mkLocalStorage [] 64%N.

(** A store that holds text that is not JSON under the key. *)
Definition garbled_storage : Engine.LocalStorage :=
  Engine.mkLocalStorage [(STORAGE_KEY, "{items: oops")] 5000000%N.

(** * Properties *)

(** ** Arrays and objects *)


Lemma get_readable (k : string) (x : value) :
  nullish x = false -> get k x = Some (prop k x).
Proof. unfold get. intros ->. reflexivity. Qed.

Lemma get_prop_arr (k : string) (v : value) (l : list value) :
  prop k v = VArr l -> get k v = Some (VArr l).
Proof.
  intros H. unfold get. destruct v; simpl in *; try discriminate.
  now rewrite H.
Qed.

Lemma Array_filter_pure (f : value -> option bool) (p : value -> bool)
  (l : list value) :
  Forall (fun x => f x = Some (p x)) l -> Array_filter f l = Some (filter p l).
Proof.
  induction 1 as [|x l Hx _ IH]; simpl; [reflexivity|].
  rewrite Hx, IH. reflexivity.
Qed.

Lemma Array_map_pure (f : value -> option value) (g : value -> value)
  (l : list value) :
  Forall (fun x => f x = Some (g x)) l -> Array_map f l = Some (map g l).
Proof.
  induction 1 as [|x l Hx _ IH]; simpl; [reflexivity|].
  rewrite Hx, IH. reflexivity.
Qed.

Lemma Array_some_pure (f : value -> option bool) (p : value -> bool)
  (l : list value) :
  Forall (fun x => f x = Some (p x)) l -> Array_some f l = Some (existsb p l).
Proof.
  induction 1 as [|x l Hx _ IH]; simpl; [reflexivity|].
  rewrite Hx. destruct (p x); simpl; [reflexivity | exact IH].
Qed.

Lemma lookup_set_prop_same (k : string) (v : value) ps :
  lookup k (set_prop k v ps) = Some v.
Proof.
  induction ps as [|[k' v'] ps IH]; simpl.
  - now rewrite String.eqb_refl.
  - destruct (String.eqb k' k) eqn:E; simpl.
    + now rewrite String.eqb_refl.
    + now rewrite E.
Qed.

Lemma lookup_set_prop_other (k k' : string) (v : value) ps :
  k' <> k -> lookup k' (set_prop k v ps) = lookup k' ps.
Proof.
  intros Hk. induction ps as [|[k0 v0] ps IH]; simpl.
  - destruct (String.eqb_spec k k'); [congruence | reflexivity].
  - destruct (String.eqb_spec k0 k) as [->|Hne]; simpl.
    + destruct (String.eqb_spec k k'); [congruence | reflexivity].
    + now rewrite IH.
Qed.

Lemma prop_with_prop_same (d : value) (k : string) (v : value) :
  prop k (with_prop d k v) = v.
Proof. unfold with_prop, prop. now rewrite lookup_set_prop_same. Qed.

Lemma prop_with_prop_other (d : value) (k k' : string) (v : value) ps :
  d = VObj ps -> k' <> k -> prop k' (with_prop d k v) = prop k' d.
Proof.
  intros -> Hk. unfold with_prop, prop; simpl.
  now rewrite lookup_set_prop_other.
Qed.

(** Writing back the value a property already has changes nothing. *)
Lemma set_prop_id (k : string) (v : value) ps :
  lookup k ps = Some v -> set_prop k v ps = ps.
Proof.
  induction ps as [|[k' v'] ps IH]; simpl; [discriminate|].
  destruct (String.eqb_spec k' k) as [->|Hne].
  - now intros [= ->].
  - intros H. now rewrite IH.
Qed.

Lemma with_prop_id (d : value) (k : string) (l : list value) :
  prop k d = VArr l -> with_prop d k (VArr l) = d.
Proof.
  destruct d; simpl; try discriminate.
  unfold with_prop; simpl. destruct (lookup k props) eqn:E; [|discriminate].
  intros ->. now rewrite set_prop_id.
Qed.

Lemma prop_arr_is_obj (k : string) (d : value) (l : list value) :
  prop k d = VArr l -> exists ps, d = VObj ps.
Proof. destruct d; simpl; try discriminate. eauto. Qed.

(** ** The callbacks on readable elements *)





Lemma readable_callback (f : value -> option bool) (p : value -> bool)
  (l : list value) :
  (forall x, nullish x = false -> f x = Some (p x)) ->
  readable l -> Forall (fun x => f x = Some (p x)) l.
Proof. intros Hf Hl. eapply Forall_impl; [|exact Hl]. exact Hf. Qed.

Lemma keeps_item_pure (a : string) (x : value) :
  nullish x = false -> keeps_item a x = Some (negb (has_id a x)).
Proof. intros H. unfold keeps_item. now rewrite (get_readable _ _ H). Qed.

Lemma keeps_connection_pure (a : string) (x : value) :
  nullish x = false -> keeps_connection a x = Some (negb (touches a x)).
Proof.
  intros H. unfold keeps_connection, touches.
  rewrite !(get_readable _ _ H). now rewrite negb_orb.
Qed.

Lemma joins_pure (a b : string) (x : value) :
  nullish x = false -> joins a b x = Some (connects a b x).
Proof. intros H. unfold joins. now rewrite !(get_readable _ _ H). Qed.

Lemma in_category_pure (a : string) (x : value) :
  nullish x = false -> in_category a x = Some (has_category a x).
Proof. intros H. unfold in_category. now rewrite (get_readable _ _ H). Qed.

Lemma is_not_pure (a : string) (x : value) :
  nullish x = false -> is_not a x = Some (negb (has_id a x)).
Proof. intros H. unfold is_not. now rewrite (get_readable _ _ H). Qed.

Lemma connects_sym (a b : string) (c : value) :
  connects a b c = connects b a c.
Proof. unfold connects. apply orb_comm. Qed.

Lemma of_type_pure (a : string) (x : value) :
  nullish x = false -> of_type a x = Some (has_type a x).
Proof. intros H. unfold of_type. now rewrite (get_readable _ _ H). Qed.

Lemma is_id_pure (a : string) (x : value) :
  nullish x = false -> is_id a x = Some (has_id a x).
Proof. intros H. unfold is_id. now rewrite (get_readable _ _ H). Qed.

Create HintDb callbacks.
#[local] Hint Resolve keeps_item_pure keeps_connection_pure joins_pure
  in_category_pure is_not_pure of_type_pure is_id_pure : callbacks.

(** A callback of the program, on every element of a readable array. *)
Ltac pure_callback :=
  apply readable_callback; [auto with callbacks | assumption].

(** The elements of a literal array are readable. *)
Ltac literal_readable := unfold readable; repeat constructor.

(** ** Duplicate connections *)

(** C3. In a state whose connections hold one between the items [a] and
    [b], in either orientation, [addConnection a b] and [addConnection b a]
    return the state as it is, for every relationship type and flag: no
    connection is appended (and nothing else changes either). *)
Theorem addConnection_duplicate
  (Number_toString Number_toString36 : number -> string)
  (now rnd : number) (st : State) (cs : list value) (c : value)
  (a b relationshipType : string) (bidirectional : bool) :
  prop "connections" (data st) = VArr cs ->
  readable cs ->
  In c cs ->
  connects a b c = true ->
  addConnection Number_toString Number_toString36 now rnd
                a b relationshipType bidirectional st = Some st
  /\ addConnection Number_toString Number_toString36 now rnd
                   b a relationshipType bidirectional st = Some st.
Proof.
  intros Hcs Hr Hin Hc.
  assert (He : forall x y, connects x y c = true ->
            Array_some (joins x y) cs = Some true).
  { intros x y Hxy.
    rewrite (Array_some_pure _ (connects x y)).
    - f_equal. apply existsb_exists. now exists c.
    - pure_callback. }
  unfold addConnection. rewrite (get_prop_arr _ _ _ Hcs). simpl.
  split.
  - now rewrite (He a b Hc).
  - rewrite (He b a); [reflexivity|]. now rewrite connects_sym.
Qed.

(** ** Cascade delete *)

(** C4. [deleteItem a] keeps, in their order, exactly the items whose id
    is not [a] and exactly the connections whose sourceId and targetId are
    both not [a]; the other collections are untouched and the selection is
    cleared. In particular, of the connections [a] to [b], [c] to [a] and
    [b] to [c], exactly the last is left. *)
Theorem deleteItem_cascade (st : State) (a : string) (its cs : list value) :
  prop "items" (data st) = VArr its ->
  prop "connections" (data st) = VArr cs ->
  readable its ->
  readable cs ->
  exists st',
    deleteItem a st = Some st'
    /\ prop "items" (data st') = VArr (filter (fun i => negb (has_id a i)) its)
    /\ prop "connections" (data st')
       = VArr (filter (fun c => negb (touches a c)) cs)
    /\ (forall i its', prop "items" (data st') = VArr its' ->
          (In i its' <-> In i its /\ has_id a i = false))
    /\ (forall c cs', prop "connections" (data st') = VArr cs' ->
          (In c cs' <-> In c cs /\ touches a c = false))
    /\ (forall k, k <> "items" -> k <> "connections" ->
          prop k (data st') = prop k (data st))
    /\ selectedItem st' = None
    /\ (forall b c ab ca bc,
          b <> a -> c <> a ->
          prop "sourceId" ab = VStr a -> prop "targetId" ab = VStr b ->
          prop "sourceId" ca = VStr c -> prop "targetId" ca = VStr a ->
          prop "sourceId" bc = VStr b -> prop "targetId" bc = VStr c ->
          cs = [ab; ca; bc] ->
          prop "connections" (data st') = VArr [bc]).
Proof.
  intros Hi Hc Hri Hrc.
  destruct (prop_arr_is_obj _ _ _ Hi) as [ps Hd].
  unfold deleteItem.
  rewrite (get_prop_arr _ _ _ Hi), (get_prop_arr _ _ _ Hc). simpl.
  rewrite (Array_filter_pure _ (fun i => negb (has_id a i)))
    by pure_callback.
  rewrite (Array_filter_pure _ (fun c => negb (touches a c)))
    by pure_callback.
  eexists. split; [reflexivity|].
  unfold setSelectedItem, setData; cbn [data selectedItem].
  assert (Hi' : prop "items"
            (with_prop (with_prop (data st) "items"
               (VArr (filter (fun i => negb (has_id a i)) its)))
               "connections"
               (VArr (filter (fun c => negb (touches a c)) cs)))
          = VArr (filter (fun i => negb (has_id a i)) its)).
  { erewrite prop_with_prop_other; [apply prop_with_prop_same | reflexivity
                                   | discriminate]. }
  split; [exact Hi'|].
  split; [apply prop_with_prop_same|].
  split.
  { intros i its'. rewrite Hi'. intros [= <-].
    rewrite filter_In, negb_true_iff. reflexivity. }
  split.
  { intros c cs'. rewrite prop_with_prop_same. intros [= <-].
    rewrite filter_In, negb_true_iff. reflexivity. }
  split.
  { intros k Hk1 Hk2.
    erewrite prop_with_prop_other; [|reflexivity|exact Hk2].
    rewrite Hd.
    erewrite prop_with_prop_other; [reflexivity|reflexivity|exact Hk1]. }
  split; [reflexivity|].
  intros b c ab ca bc Hba Hca Hab1 Hab2 Hca1 Hca2 Hbc1 Hbc2 ->.
  rewrite prop_with_prop_same. unfold touches. simpl.
  rewrite Hab1, Hab2, Hca1, Hca2, Hbc1, Hbc2. simpl.
  rewrite String.eqb_refl. simpl.
  apply String.eqb_neq in Hba, Hca. rewrite Hba, Hca. reflexivity.
Qed.

(** ** Category delete guard *)

(** C5. When some item's category is [catId], [deleteCategory catId]
    changes nothing in the application state and raises the alert
    [category_in_use]; when no item's category is [catId], it raises no
    alert and keeps, in their order, exactly the categories whose id is
    not [catId]. *)
Theorem deleteCategory_guard (st : State) (catId : string)
  (its cats : list value) :
  prop "items" (data st) = VArr its ->
  prop "categories" (data st) = VArr cats ->
  readable its ->
  readable cats ->
  (existsb (has_category catId) its = true ->
     deleteCategory catId st = Some (alert category_in_use st)
     /\ data (alert category_in_use st) = data st
     /\ alerts (alert category_in_use st)
        = (alerts st ++
           ["Cannot delete category that has items. Reassign items first."])%list)
  /\ (existsb (has_category catId) its = false ->
        exists st',
          deleteCategory catId st = Some st'
          /\ prop "categories" (data st')
             = VArr (filter (fun c => negb (has_id catId c)) cats)
          /\ (forall c, In c (filter (fun c => negb (has_id catId c)) cats)
                <-> In c cats /\ has_id catId c = false)
          /\ (forall k, k <> "categories" ->
                prop k (data st') = prop k (data st))
          /\ alerts st' = alerts st).
Proof.
  intros Hi Hc Hri Hrc.
  destruct (prop_arr_is_obj _ _ _ Hi) as [ps Hd].
  assert (Hs : Array_some (in_category catId) its
               = Some (existsb (has_category catId) its)).
  { apply Array_some_pure. pure_callback. }
  unfold deleteCategory. rewrite (get_prop_arr _ _ _ Hi). simpl. rewrite Hs.
  split; intros ->.
  - repeat split; reflexivity.
  - rewrite (get_prop_arr _ _ _ Hc). simpl.
    rewrite (Array_filter_pure _ (fun c => negb (has_id catId c)))
      by pure_callback.
    eexists. split; [reflexivity|].
    unfold setData; cbn [data alerts].
    split; [apply prop_with_prop_same|].
    split.
    { intros c. rewrite filter_In, negb_true_iff. reflexivity. }
    split; [|reflexivity].
    intros k Hk. rewrite Hd at 1.
    erewrite prop_with_prop_other; [now rewrite Hd | reflexivity | exact Hk].
Qed.

(** ** Updates of an unknown id *)

Lemma update_where_miss (id : string) (updates : list (string * value))
  (cs : list value) :
  readable cs ->
  existsb (has_id id) cs = false ->
  Array_map (update_where id updates) cs = Some cs.
Proof.
  intros Hr Hn.
  rewrite (Array_map_pure _ (fun c => c)); [now rewrite map_id|].
  rewrite Forall_forall. intros c Hin.
  unfold update_where.
  rewrite get_readable by (unfold readable in Hr;
                           rewrite Forall_forall in Hr; auto).
  assert (Hc : has_id id c = false).
  { destruct (has_id id c) eqn:E; [|reflexivity].
    rewrite <- Hn. symmetry. apply existsb_exists. now exists c. }
  unfold has_id in Hc. now rewrite Hc.
Qed.

Lemma setData_same (st : State) : setData (data st) st = st.
Proof. now destruct st. Qed.

(** C10. When no category has the id [x], [updateCategory x updates]
    returns the state as it is, for every [updates]; and when no
    relationship type has the id [x], so does
    [updateRelationshipType x updates]. Nothing is created, nothing is
    modified and nothing is thrown. *)
Theorem update_unknown_id (st : State) (x : string)
  (updates : list (string * value)) :
  (forall cats,
     prop "categories" (data st) = VArr cats ->
     readable cats ->
     existsb (has_id x) cats = false ->
     updateCategory x updates st = Some st)
  /\ (forall rels,
        prop "relationshipTypes" (data st) = VArr rels ->
        readable rels ->
        existsb (has_id x) rels = false ->
        updateRelationshipType x updates st = Some st).
Proof.
  split; intros l Hl Hr Hn.
  - unfold updateCategory. rewrite (get_prop_arr _ _ _ Hl). simpl.
    rewrite (update_where_miss _ _ _ Hr Hn).
    now rewrite (with_prop_id _ _ _ Hl), setData_same.
  - unfold updateRelationshipType. rewrite (get_prop_arr _ _ _ Hl). simpl.
    rewrite (update_where_miss _ _ _ Hr Hn).
    now rewrite (with_prop_id _ _ _ Hl), setData_same.
Qed.

(** ** Import *)

(** C6. When the text of the file parses as JSON, [importData] puts the
    parsed value in place of the application state, whatever its shape,
    and raises no alert; when it does not parse, the application state is
    the one before and the alert [import_failed] is raised. *)
Theorem importData_replaces_or_alerts (JSON_parse : string -> option value)
  (st : State) (text : string) :
  (forall imported,
     JSON_parse text = Some imported ->
     importData JSON_parse (Some text) st = setData imported st
     /\ data (importData JSON_parse (Some text) st) = imported
     /\ alerts (importData JSON_parse (Some text) st) = alerts st)
  /\ (JSON_parse text = None ->
      importData JSON_parse (Some text) st = alert import_failed st
      /\ data (importData JSON_parse (Some text) st) = data st
      /\ alerts (importData JSON_parse (Some text) st)
         = (alerts st ++ ["Failed to import data: Invalid JSON"])%list).
Proof.
  split.
  - intros imported H. unfold importData. rewrite H. repeat split.
  - intros H. unfold importData. rewrite H. repeat split.
Qed.

(** ** The Connect button *)

Lemma id_of_string (x : value) (a : string) :
  prop "id" x = VStr a -> id_of x = Some a.
Proof.
  intros H. unfold id_of, get.
  destruct x; simpl in *; try discriminate. now rewrite H.
Qed.

(** Connect on a draft whose two items are already connected returns from
    [addConnection] before the dialog state is cleared. *)
Lemma onSubmit_duplicate
  (Number_toString Number_toString36 : number -> string)
  (now rnd : number) (st : State) (source target : value)
  (cs : list value) (c : value) (a b relType : string) (bidirectional : bool) :
  pendingConnection st = Some (source, target) ->
  prop "id" source = VStr a ->
  prop "id" target = VStr b ->
  prop "connections" (data st) = VArr cs ->
  readable cs ->
  In c cs ->
  connects a b c = true ->
  onSubmit Number_toString Number_toString36 now rnd relType bidirectional st
  = Some st.
Proof.
  intros Hp Ha Hb Hcs Hr Hin Hc. unfold onSubmit. rewrite Hp.
  rewrite (id_of_string _ _ Ha), (id_of_string _ _ Hb).
  unfold addConnection. rewrite (get_prop_arr _ _ _ Hcs). simpl.
  rewrite (Array_some_pure _ (connects a b))
    by pure_callback.
  replace (existsb (connects a b) cs) with true; [reflexivity|].
  symmetry. apply existsb_exists. now exists c.
Qed.

(** C9, on the code. With the dialog open on the draft from A to B and a
    connection from A to B in place, Connect leaves the dialog open, the
    draft pending and the connecting-from item set; on the draft from A
    to a fresh item it clears all three. *)
Theorem onSubmit_keeps_dialog_on_duplicate :
  (let st' := onSubmit Engine.Number_toString Engine.Number_toString36
                1700000000000%float 0.5%float "part-of" true dialog_state in
   st' = Some dialog_state
   /\ showNewConnectionModal dialog_state = true
   /\ pendingConnection dialog_state = Some (item_A, item_B)
   /\ connectingFrom dialog_state = Some item_A)
  /\ (let fresh := sample_item "D" "Cache" "data" 0%float 0%float in
      exists st',
        onSubmit Engine.Number_toString Engine.Number_toString36
          1700000000000%float 0.5%float "part-of" true
          (setPendingConnection (Some (item_A, fresh)) dialog_state)
        = Some st'
        /\ showNewConnectionModal st' = false
        /\ pendingConnection st' = None
        /\ connectingFrom st' = None).
Proof.
  split.
  - cbv zeta. split; [|repeat split].
    apply (onSubmit_duplicate _ _ _ _ dialog_state item_A item_B
             [conn_AB; conn_CA; conn_BC] conn_AB "A" "B");
      try reflexivity.
    + literal_readable.
    + now left.
  - cbv zeta. eexists. split; [vm_compute; reflexivity|]. repeat split.
Qed.

(** ** Identifiers *)

Lemma substring_length (n m : nat) (s : string) :
  String.length (substring n m s) = Nat.min m (String.length s - n).
Proof.
  revert n m. induction s as [|c s IH]; intros n m.
  - destruct n, m; simpl; auto using Nat.min_0_r.
  - destruct n as [|n]; simpl.
    + destruct m as [|m]; simpl; [reflexivity|].
      rewrite IH. now rewrite Nat.sub_0_r.
    + apply IH.
Qed.

Lemma substring_skip (n m : nat) (a b : string) :
  String.length a = n -> substring n m (a ++ b) = substring 0 m b.
Proof.
  revert n. induction a as [|c a IH]; intros n Hn; simpl in *.
  - now subst n.
  - destruct n as [|n]; [discriminate|]. apply IH. now injection Hn.
Qed.

(** C8, as the code has it. An identifier is the decimal text of the
    timestamp, a dash, and the characters of the base-36 text of the random
    number from the third on, nine at most: as many as that text has after
    its first two, so fewer than nine when it is shorter than eleven. When
    the text is [0.] and digits, the suffix is the first nine digits. *)
Theorem generateId_shape
  (Number_toString Number_toString36 : number -> string) (now rnd : number) :
  let suffix := substr 2 9 (Number_toString36 rnd) in
  generateId Number_toString Number_toString36 now rnd
  = Number_toString now ++ "-" ++ suffix
  /\ String.length suffix = Nat.min 9 (String.length (Number_toString36 rnd) - 2)
  /\ String.length suffix <= 9
  /\ (forall digits,
        Number_toString36 rnd = "0." ++ digits -> suffix = substr 0 9 digits).
Proof.
  cbv zeta. unfold generateId, substr.
  split; [reflexivity|]. split; [apply substring_length|].
  split; [rewrite substring_length; apply Nat.le_min_l|].
  intros digits ->. now apply (substring_skip 2 9 "0." digits).
Qed.

(** C8 fails as stated: when Math.random() returns 0.5, whose base-36 text
    is [0.i], the suffix is the single character [i]. *)
Lemma generateId_short_suffix :
  Engine.Number_toString36 0.5%float = "0.i"
  /\ generateId Engine.Number_toString Engine.Number_toString36
       1700000000000%float 0.5%float = "1700000000000-i"
  /\ String.length (substr 2 9 (Engine.Number_toString36 0.5%float)) = 1
  /\ 1 < 9.
Proof. repeat split; try (vm_compute; reflexivity). lia. Qed.

(** ** Persistence *)

(** The reference store returns what was last written under a key. *)
Lemma Engine_put_assoc (k v : string) (es : list (string * string)) :
  Engine.assoc k (Engine.put k v es) = Some v.
Proof.
  induction es as [|[k' v'] es IH]; simpl.
  - now rewrite String.eqb_refl.
  - destruct (String.eqb k' k) eqn:E; simpl.
    + now rewrite String.eqb_refl.
    + now rewrite E.
Qed.

Lemma Engine_reads_back (ls ls' : Engine.LocalStorage) (k v : string) :
  Engine.setItem ls k v = Some ls' -> Engine.getItem ls' k = Some (Some v).
Proof.
  unfold Engine.setItem, Engine.getItem.
  destruct (N.leb _ _); [|discriminate].
  intros [= <-]. simpl. now rewrite Engine_put_assoc.
Qed.

(** *** The reference JSON codec reads back what it writes *)

Lemma json_arr (l : list value) : json_safe (VArr l) <-> Forall json_safe l.
Proof.
  induction l as [|x l IH]; simpl.
  - split; auto.
  - split.
    + intros [Hx Hl]. constructor; [exact Hx | now apply IH].
    + intros H. inversion H; subst. split; [assumption | now apply IH].
Qed.

Lemma json_obj (ps : list (string * value)) :
  json_safe (VObj ps)
  <-> Forall (fun kx => json_safe (snd kx)) ps /\ NoDup (map fst ps).
Proof.
  simpl. apply and_iff_compat_r.
  induction ps as [|kx ps IH]; simpl.
  - split; auto.
  - split.
    + intros [Hx Hl]. constructor; [exact Hx | now apply IH].
    + intros H. inversion H; subst. split; [assumption | now apply IH].
Qed.

Lemma json_weight_arr (l : list value) :
  json_weight (VArr l) = S (json_weights l).
Proof. reflexivity. Qed.

Lemma json_weight_obj ps : json_weight (VObj ps) = S (json_member_weights ps).
Proof. reflexivity. Qed.

Lemma value_ind_nested (P : value -> Prop) :
  P VUndefined -> P VNull -> (forall b, P (VBool b)) ->
  (forall n, P (VNum n)) -> (forall s, P (VStr s)) ->
  (forall l, Forall P l -> P (VArr l)) ->
  (forall ps, Forall (fun kx => P (snd kx)) ps -> P (VObj ps)) ->
  forall v, P v.
Proof.
  intros Hu Hn Hb Hnum Hs Ha Ho.
  fix IH 1. intros [| |b|n|s|l|ps].
  - exact Hu.
  - exact Hn.
  - apply Hb.
  - apply Hnum.
  - apply Hs.
  - apply Ha. induction l as [|x l IHl]; constructor; [apply IH | exact IHl].
  - apply Ho. induction ps as [|[k x] ps IHps]; constructor;
      [apply IH | exact IHps].
Qed.

Lemma append_assoc (a b c : string) : (a ++ b) ++ c = a ++ b ++ c.
Proof. induction a as [|x a IH]; [reflexivity | simpl; now rewrite IH]. Qed.

Lemma length_append (a b : string) :
  String.length (a ++ b) = String.length a + String.length b.
Proof. induction a as [|x a IH]; [reflexivity | simpl; now rewrite IH]. Qed.

Ltac each_ascii c :=
  destruct c as [[] [] [] [] [] [] [] []].

Lemma parse_chars_unit (c : ascii) (f : nat) (X : string) :
  Engine.parse_chars (S f) (Engine.quote_unit c ++ X)
  = match Engine.parse_chars f X with
    | Some (t, r) => Some (String c t, r)
    | None => None
    end.
Proof. each_ascii c; reflexivity. Qed.

Lemma quote_unit_length (c : ascii) :
  1 <= String.length (Engine.quote_unit c).
Proof. each_ascii c; simpl; lia. Qed.

Lemma quote_units_length (s : string) :
  String.length s <= String.length (Engine.quote_units s).
Proof.
  induction s as [|c s IH]; simpl; [lia|].
  rewrite length_append. pose proof (quote_unit_length c). lia.
Qed.

Lemma parse_chars_quote (s : string) (fuel : nat) (rest : string) :
  String.length s < fuel ->
  Engine.parse_chars fuel
    (Engine.quote_units s ++ String Engine.dquote rest)
  = Some (s, rest).
Proof.
  revert fuel. induction s as [|c s IH]; intros fuel Hf.
  - destruct fuel; [lia|]. reflexivity.
  - destruct fuel as [|f]; [simpl in Hf; lia|].
    simpl Engine.quote_units. rewrite append_assoc, parse_chars_unit.
    rewrite IH; [reflexivity | simpl in Hf; lia].
Qed.

Lemma append_nil_r (s : string) : s ++ "" = s.
Proof. induction s as [|c s IH]; [reflexivity | simpl; now rewrite IH]. Qed.

Lemma num_start_dispatch (c : ascii) :
  num_start c = true ->
  Engine.is_ws c = false
  /\ Ascii.eqb c "[" = false /\ Ascii.eqb c "{" = false
  /\ Ascii.eqb c Engine.dquote = false
  /\ Ascii.eqb "n" c = false /\ Ascii.eqb "t" c = false
  /\ Ascii.eqb "f" c = false.
Proof. each_ascii c; intros H; try discriminate H; repeat split. Qed.

Lemma opens_dispatch (c : ascii) :
  opens c = true ->
  Engine.is_ws c = false
  /\ Ascii.eqb c "]" = false /\ Ascii.eqb c "}" = false.
Proof. each_ascii c; intros H; try discriminate H; repeat split. Qed.

Lemma num_start_opens (c : ascii) : num_start c = true -> opens c = true.
Proof. unfold opens. now intros ->. Qed.

Lemma parse_number_start (s : string) (p : float * string) :
  Engine.parse_number s = Some p ->
  exists c s', s = String c s' /\ num_start c = true.
Proof.
  destruct s as [|c s']; [discriminate|].
  intros H. exists c, s'. split; [reflexivity|].
  destruct (num_start c) eqn:E; [reflexivity|]. exfalso.
  revert H. unfold Engine.parse_number.
  unfold num_start in E. apply orb_false_iff in E as [E1 E2].
  cbn [Engine.strip_prefix].
  rewrite Ascii.eqb_sym in E1. rewrite E1.
  cbn [Engine.take_digits]. unfold Engine.digit_value. cbv zeta. rewrite E2.
  simpl. discriminate.
Qed.

Lemma parse_value_number (f : nat) (s : string) (x : float) (r : string) :
  Engine.parse_number s = Some (x, r) ->
  Engine.parse_value (S f) s = Some (VNum x, r).
Proof.
  intros H. destruct (parse_number_start _ _ H) as (c & s' & -> & Hc).
  destruct (num_start_dispatch c Hc) as (Hws & H1 & H2 & H3 & Hn & Ht & Hf).
  cbn [Engine.parse_value Engine.skip_ws]. rewrite Hws, H1, H2, H3.
  cbn [Engine.strip_prefix]. rewrite Hn, Ht, Hf. now rewrite H.
Qed.

Lemma serialize_arr (l : list value) :
  Engine.serialize (VArr l)
  = Some ("[" ++ Engine.join "," (map json_text l) ++ "]").
Proof. reflexivity. Qed.

Lemma json_serialize (v : value) :
  json_safe v -> Engine.serialize v = Some (json_text v).
Proof.
  destruct v as [| |b|n|s|l|ps]; simpl; try tauto; intros H;
    try reflexivity.
  now destruct b.
Qed.

Lemma json_text_num (x : float) :
  reads_back x -> json_text (VNum x) = Engine.Number_toString x.
Proof. intros [Hf _]. unfold json_text. simpl. now rewrite Hf. Qed.

Lemma json_members_text (ps : list (string * value)) :
  Forall (fun kx => json_safe (snd kx)) ps ->
  flat_map (fun kx => match Engine.serialize (snd kx) with
                      | Some t => [Engine.quote (fst kx) ++ ":" ++ t]
                      | None => []
                      end) ps
  = map json_member ps.
Proof.
  induction 1 as [|kx ps Hx _ IH]; [reflexivity|].
  cbn [flat_map map]. rewrite IH. unfold json_member at 1. unfold json_text.
  now rewrite (json_serialize _ Hx).
Qed.

Lemma json_text_obj (ps : list (string * value)) :
  Forall (fun kx => json_safe (snd kx)) ps ->
  json_text (VObj ps) = "{" ++ Engine.join "," (map json_member ps) ++ "}".
Proof.
  intros H. unfold json_text.
  change (Engine.serialize (VObj ps))
    with (Some ("{" ++ Engine.join ","
                  (flat_map (fun kx => match Engine.serialize (snd kx) with
                      | Some t => [Engine.quote (fst kx) ++ ":" ++ t]
                      | None => []
                      end) ps) ++ "}")).
  now rewrite (json_members_text _ H).
Qed.

Lemma json_text_arr (l : list value) :
  json_text (VArr l) = "[" ++ Engine.join "," (map json_text l) ++ "]".
Proof. reflexivity. Qed.

Lemma ends_value_nil : ends_value "".
Proof. now left. Qed.

Lemma json_text_opens (v : value) :
  json_safe v -> exists c t, json_text v = String c t /\ opens c = true.
Proof.
  destruct v as [| |b|n|s|l|ps]; intros H.
  - destruct H.
  - now exists "n"%char, "ull".
  - destruct b; [now exists "t"%char, "rue" | now exists "f"%char, "alse"].
  - rewrite (json_text_num _ H). destruct H as [_ H].
    specialize (H "" ends_value_nil). rewrite append_nil_r in H.
    destruct (parse_number_start _ _ H) as (c & s' & -> & Hc).
    exists c, s'. split; [reflexivity | now apply num_start_opens].
  - eexists _, _. split; [reflexivity | reflexivity].
  - rewrite json_text_arr. eexists _, _. split; reflexivity.
  - apply json_obj in H as [H _]. rewrite (json_text_obj _ H).
    eexists _, _. split; reflexivity.
Qed.

Lemma skip_ws_opens (c : ascii) (t : string) :
  opens c = true -> Engine.skip_ws (String c t) = String c t.
Proof.
  intros H. destruct (opens_dispatch c H) as (Hws & _). simpl. now rewrite Hws.
Qed.

Lemma set_prop_fresh (k : string) (v : value) (acc : list (string * value)) :
  ~ In k (map fst acc) -> set_prop k v acc = (acc ++ [(k, v)])%list.
Proof.
  induction acc as [|[k' v'] acc IH]; simpl; intros H; [reflexivity|].
  destruct (String.eqb_spec k' k) as [->|Hne]; [tauto|].
  rewrite IH; tauto.
Qed.

Lemma ends_value_comma (r : string) : ends_value (String "," r).
Proof. right. exists ","%char, r. auto. Qed.

Lemma ends_value_bracket (r : string) : ends_value (String "]" r).
Proof. right. exists "]"%char, r. auto. Qed.

Lemma ends_value_brace (r : string) : ends_value (String "}" r).
Proof. right. exists "}"%char, r. auto. Qed.

Lemma json_weights_cons (x : value) (l : list value) :
  json_weights (x :: l) = S (json_weight x + json_weights l).
Proof. reflexivity. Qed.

Lemma json_member_weights_cons (kx : string * value) ps :
  json_member_weights (kx :: ps)
  = S (json_weight (snd kx) + json_member_weights ps).
Proof. reflexivity. Qed.

Lemma parse_elements_join (l : list value) :
  Forall reads_as_written l -> Forall json_safe l -> l <> [] ->
  forall fuel acc rest,
    json_weights l <= fuel ->
    Engine.parse_elements fuel
      (Engine.join "," (map json_text l) ++ String "]" rest) acc
    = Some (VArr (rev acc ++ l), rest).
Proof.
  induction l as [|x l IH]; intros HP HJ Hne fuel acc rest Hf; [congruence|].
  inversion HP as [|? ? Px Pl]; subst. inversion HJ as [|? ? Jx Jl]; subst.
  rewrite json_weights_cons in Hf.
  destruct fuel as [|f]; [lia|].
  destruct l as [|y l'].
  - simpl Engine.join. simpl map. cbn [Engine.join].
    cbn [Engine.parse_elements].
    rewrite (Px Jx f (String "]" rest)) by (try apply ends_value_bracket; lia).
    reflexivity.
  - change (Engine.join "," (map json_text (x :: y :: l')))
      with (json_text x ++ "," ++ Engine.join "," (map json_text (y :: l'))).
    rewrite !append_assoc.
    cbn [Engine.parse_elements].
    change ("," ++ Engine.join "," (map json_text (y :: l')) ++ String "]" rest)
      with (String "," (Engine.join "," (map json_text (y :: l'))
                        ++ String "]" rest)).
    rewrite (Px Jx f) by (try apply ends_value_comma; lia).
    cbn [Engine.skip_ws Engine.is_ws]. simpl Ascii.eqb. cbv iota.
    change (Engine.is_ws ",") with false. cbv iota.
    rewrite IH; [|assumption|assumption|discriminate|].
    + simpl. now rewrite <- app_assoc.
    + lia.
Qed.

Lemma member_shape (k : string) (x : value) (R : string) :
  json_member (k, x) ++ R
  = String Engine.dquote
      (Engine.quote_units k
       ++ String Engine.dquote (String ":" (json_text x ++ R))).
Proof.
  unfold json_member, Engine.quote. simpl fst. simpl snd.
  cbn [append]. f_equal. now rewrite !append_assoc.
Qed.

Lemma key_fuel (k R : string) :
  String.length k
  < String.length (Engine.quote_units k ++ String Engine.dquote R) + 1.
Proof.
  rewrite length_append. pose proof (quote_units_length k). simpl. lia.
Qed.

Lemma parse_members_step (f : nat) (k R : string)
  (acc : list (string * value)) :
  Engine.parse_members (S f)
    (String Engine.dquote
       (Engine.quote_units k ++ String Engine.dquote (String ":" R))) acc
  = match Engine.parse_value f R with
    | None => None
    | Some (v, r2) =>
        match Engine.skip_ws r2 with
        | EmptyString => None
        | String c2 r3 =>
            if Ascii.eqb c2 ","
            then Engine.parse_members f r3 (set_prop k v acc)
            else if Ascii.eqb c2 "}"
                 then Some (VObj (set_prop k v acc), r3)
                 else None
        end
    end.
Proof.
  cbn [Engine.parse_members Engine.skip_ws].
  change (Engine.is_ws Engine.dquote) with false. cbv iota.
  rewrite Ascii.eqb_refl.
  rewrite parse_chars_quote by apply key_fuel.
  cbn [Engine.skip_ws]. change (Engine.is_ws ":") with false. cbv iota.
  rewrite Ascii.eqb_refl. reflexivity.
Qed.

Lemma parse_members_join (ps : list (string * value)) :
  Forall (fun kx => reads_as_written (snd kx)) ps ->
  Forall (fun kx => json_safe (snd kx)) ps ->
  ps <> [] ->
  forall fuel acc rest,
    json_member_weights ps <= fuel ->
    NoDup (map fst (acc ++ ps)) ->
    Engine.parse_members fuel
      (Engine.join "," (map json_member ps) ++ String "}" rest) acc
    = Some (VObj (acc ++ ps), rest).
Proof.
  induction ps as [|[k x] ps IH]; intros HP HJ Hne fuel acc rest Hf Hk;
    [congruence|].
  inversion HP as [|? ? Px Pl]; subst. inversion HJ as [|? ? Jx Jl]; subst.
  simpl in Px, Jx.
  rewrite json_member_weights_cons in Hf. simpl snd in Hf.
  destruct fuel as [|f]; [lia|].
  assert (Hfresh : ~ In k (map fst acc)).
  { rewrite map_app in Hk. simpl in Hk. apply NoDup_remove_2 in Hk.
    intros Hin. apply Hk. apply in_or_app. now left. }
  destruct ps as [|ky ps'].
  - cbn [map Engine.join]. rewrite member_shape, parse_members_step.
    rewrite (Px Jx f) by (try apply ends_value_brace; lia).
    cbn [Engine.skip_ws]. change (Engine.is_ws "}") with false. cbv iota.
    change (Ascii.eqb "}" ",") with false. cbv iota.
    rewrite Ascii.eqb_refl. now rewrite set_prop_fresh.
  - change (Engine.join "," (map json_member ((k, x) :: ky :: ps')))
      with (json_member (k, x)
            ++ "," ++ Engine.join "," (map json_member (ky :: ps'))).
    rewrite !append_assoc. rewrite member_shape, parse_members_step.
    change ("," ++ Engine.join "," (map json_member (ky :: ps'))
            ++ String "}" rest)
      with (String "," (Engine.join "," (map json_member (ky :: ps'))
                        ++ String "}" rest)).
    rewrite (Px Jx f) by (try apply ends_value_comma; lia).
    cbn [Engine.skip_ws]. change (Engine.is_ws ",") with false. cbv iota.
    rewrite Ascii.eqb_refl. rewrite set_prop_fresh by exact Hfresh.
    rewrite IH; [|assumption|assumption|discriminate| |].
    + now rewrite <- app_assoc.
    + lia.
    + now rewrite <- app_assoc.
Qed.

Lemma join_opens (f : value -> string) (x : value) (l : list value)
  (c : ascii) (t R : string) :
  f x = String c t ->
  exists J, Engine.join "," (map f (x :: l)) ++ R = String c J.
Proof.
  intros H. destruct l as [|y l']; cbn [map Engine.join]; rewrite H;
    eexists; reflexivity.
Qed.

Lemma members_open (kx : string * value) (ps : list (string * value))
  (R : string) :
  exists J,
    Engine.join "," (map json_member (kx :: ps)) ++ R
    = String Engine.dquote J.
Proof.
  destruct ps as [|ky ps']; cbn [map Engine.join]; eexists; reflexivity.
Qed.

Theorem parse_serialize (v : value) : reads_as_written v.
Proof.
  induction v as [| |b|x|s|l IH|ps IH] using value_ind_nested;
    intros Hj fuel rest Hf Hc.
  - destruct Hj.
  - destruct fuel; [simpl in Hf; lia | reflexivity].
  - destruct fuel; [simpl in Hf; lia |]. destruct b; reflexivity.
  - destruct fuel as [|f]; [simpl in Hf; lia |].
    rewrite (json_text_num _ Hj). apply parse_value_number. now apply Hj.
  - destruct fuel as [|f]; [simpl in Hf; lia |].
    change (json_text (VStr s)) with (Engine.quote s). unfold Engine.quote.
    cbn [append]. rewrite append_assoc. cbn [append].
    cbn [Engine.parse_value Engine.skip_ws].
    change (Engine.is_ws Engine.dquote) with false. cbv iota.
    change (Ascii.eqb Engine.dquote "[") with false.
    change (Ascii.eqb Engine.dquote "{") with false. cbv iota.
    rewrite Ascii.eqb_refl. now rewrite parse_chars_quote by apply key_fuel.
  - apply json_arr in Hj. rewrite json_weight_arr in Hf.
    destruct fuel as [|f]; [lia|].
    rewrite json_text_arr. cbn [append]. rewrite append_assoc. cbn [append].
    cbn [Engine.parse_value Engine.skip_ws].
    change (Engine.is_ws "[") with false. cbv iota.
    rewrite Ascii.eqb_refl.
    destruct l as [|x l'].
    + reflexivity.
    + inversion Hj as [|? ? Jx Jl]; subst.
      destruct (json_text_opens x Jx) as (c & t & Hx & Hc').
      destruct (join_opens json_text x l' c t (String "]" rest) Hx) as [J HJ].
      rewrite HJ. rewrite (skip_ws_opens c J Hc').
      destruct (opens_dispatch c Hc') as (_ & -> & _).
      rewrite <- HJ. rewrite parse_elements_join;
        [reflexivity | assumption | assumption | discriminate | lia].
  - apply json_obj in Hj as [Hj Hk]. rewrite json_weight_obj in Hf.
    destruct fuel as [|f]; [lia|].
    rewrite (json_text_obj _ Hj). cbn [append]. rewrite append_assoc.
    cbn [append]. cbn [Engine.parse_value Engine.skip_ws].
    change (Engine.is_ws "{") with false. cbv iota.
    change (Ascii.eqb "{" "[") with false. cbv iota.
    rewrite Ascii.eqb_refl.
    destruct ps as [|kx ps'].
    + reflexivity.
    + destruct (members_open kx ps' (String "}" rest)) as [J HJ].
      rewrite HJ. cbn [Engine.skip_ws].
      change (Engine.is_ws Engine.dquote) with false. cbv iota.
      change (Ascii.eqb Engine.dquote "}") with false. cbv iota.
      rewrite <- HJ. rewrite (parse_members_join _ IH Hj);
        [reflexivity | discriminate | lia | exact Hk].
Qed.

Lemma join_length_elems (l : list value) :
  Forall (fun x => json_weight x <= String.length (json_text x)) l ->
  json_weights l <= String.length (Engine.join "," (map json_text l)) + 1.
Proof.
  induction 1 as [|x l Hx Hl IH]; [simpl; lia|].
  rewrite json_weights_cons. destruct l as [|y l'].
  - cbn [map Engine.join]. change (json_weights []) with 0. lia.
  - change (Engine.join "," (map json_text (x :: y :: l')))
      with (json_text x ++ "," ++ Engine.join "," (map json_text (y :: l'))).
    rewrite !length_append. simpl String.length at 2. lia.
Qed.

Lemma join_length_members (ps : list (string * value)) :
  Forall (fun kx => json_weight (snd kx)
                    <= String.length (json_text (snd kx))) ps ->
  json_member_weights ps
  <= String.length (Engine.join "," (map json_member ps)) + 1.
Proof.
  assert (Hm : forall kx, String.length (json_text (snd kx))
                          <= String.length (json_member kx)).
  { intros kx. unfold json_member. rewrite length_append.
    cbn [append String.length]. lia. }
  induction 1 as [|kx ps Hx Hl IH]; [simpl; lia|].
  rewrite json_member_weights_cons. specialize (Hm kx).
  destruct ps as [|ky ps'].
  - cbn [map Engine.join]. change (json_member_weights []) with 0. lia.
  - change (Engine.join "," (map json_member (kx :: ky :: ps')))
      with (json_member kx
            ++ "," ++ Engine.join "," (map json_member (ky :: ps'))).
    rewrite !length_append. simpl String.length at 2. lia.
Qed.

Lemma json_weight_le_length (v : value) :
  json_safe v -> json_weight v <= String.length (json_text v).
Proof.
  induction v as [| |b|x|s|l IH|ps IH] using value_ind_nested; intros Hj.
  - destruct Hj.
  - simpl. lia.
  - destruct b; simpl; lia.
  - destruct (json_text_opens _ Hj) as (c & t & -> & _). simpl. lia.
  - simpl. lia.
  - apply json_arr in Hj. rewrite json_weight_arr, json_text_arr.
    rewrite !length_append. simpl String.length.
    assert (H : Forall (fun x => json_weight x
                                 <= String.length (json_text x)) l).
    { rewrite Forall_forall in *. auto. }
    pose proof (join_length_elems l H). lia.
  - apply json_obj in Hj as [Hj _].
    rewrite json_weight_obj, (json_text_obj _ Hj).
    rewrite !length_append. simpl String.length.
    assert (H : Forall (fun kx => json_weight (snd kx)
                                  <= String.length (json_text (snd kx))) ps).
    { rewrite Forall_forall in *. auto. }
    pose proof (join_length_members ps H). lia.
Qed.

Theorem JSON_roundtrip (v : value) :
  json_safe v ->
  exists t, Engine.JSON_stringify v = Some t
            /\ t <> ""
            /\ Engine.JSON_parse t = Some v.
Proof.
  intros Hj. exists (json_text v). split; [now apply json_serialize|].
  split.
  { destruct (json_text_opens _ Hj) as (c & t & -> & _). discriminate. }
  unfold Engine.JSON_parse.
  pose proof (parse_serialize v Hj
                (2 * String.length (json_text v) + 2) "") as H.
  rewrite append_nil_r in H. rewrite H; [reflexivity | | apply ends_value_nil].
  pose proof (json_weight_le_length v Hj). lia.
Qed.

(** *** Loading and saving *)

(** C2. When nothing is stored under the key, or what is stored does not
    parse as JSON (or the read itself throws), [loadData] returns
    [default_data]: no items, no connections, the four categories UI,
    Mechanics, Data and Core with their colours and pairwise distinct ids,
    and the three relationship types with their colours and dash flags. *)
Theorem loadData_default (Storage : Type)
  (getItem : Storage -> string -> option (option string))
  (JSON_parse : string -> option value) (ls : Storage) :
  getItem ls STORAGE_KEY = Some None
  \/ (exists saved, getItem ls STORAGE_KEY = Some (Some saved)
                    /\ JSON_parse saved = None)
  \/ getItem ls STORAGE_KEY = None ->
  loadData getItem JSON_parse ls = default_data
  /\ prop "items" default_data = VArr []
  /\ prop "connections" default_data = VArr []
  /\ (exists cats,
        prop "categories" default_data = VArr cats
        /\ List.length cats = 4
        /\ NoDup (map (prop "id") cats)
        /\ map (fun c => (prop "name" c, prop "color" c)) cats
           = [ (VStr "UI", VStr "#60a5fa");
               (VStr "Mechanics", VStr "#f472b6");
               (VStr "Data", VStr "#4ade80");
               (VStr "Core", VStr "#fbbf24") ])
  /\ (exists rels,
        prop "relationshipTypes" default_data = VArr rels
        /\ List.length rels = 3
        /\ map (fun r => (prop "name" r, prop "color" r, prop "dashed" r)) rels
           = [ (VStr "depends on", VStr "#94a3b8", VBool false);
               (VStr "part of", VStr "#a78bfa", VBool true);
               (VStr "related to", VStr "#67e8f9", VBool true) ]).
Proof.
  intros H. split.
  { unfold loadData.
    destruct H as [-> | [(saved & -> & Hp) | ->]]; try reflexivity.
    rewrite Hp. now destruct (truthy_str saved). }
  split; [reflexivity|]. split; [reflexivity|]. split.
  - eexists. split; [reflexivity|]. split; [reflexivity|].
    split; [|reflexivity]. simpl.
    repeat (constructor; [simpl; intuition discriminate|]). constructor.
  - eexists. split; [reflexivity|]. split; reflexivity.
Qed.

Lemma save_then_load_any (Storage : Type)
  (getItem : Storage -> string -> option (option string))
  (setItem : Storage -> string -> string -> option Storage)
  (JSON_parse : string -> option value)
  (JSON_stringify : value -> option string)
  (ls ls' : Storage) (S : value) (text : string) :
  JSON_stringify S = Some text ->
  JSON_parse text = Some S ->
  text <> "" ->
  setItem ls STORAGE_KEY text = Some ls' ->
  getItem ls' STORAGE_KEY = Some (Some text) ->
  loadData getItem JSON_parse (saveData setItem JSON_stringify S ls) = S.
Proof.
  intros Hs Hp Hne Hset Hget.
  unfold saveData. rewrite Hs. simpl. rewrite Hset.
  unfold loadData. rewrite Hget.
  destruct text; [congruence|]. simpl. now rewrite Hp.
Qed.

(** C1, as the code has it. In every browser: when the write succeeds,
    the store returns what was written, and the JSON text of [S] is not
    empty and parses back to [S], [loadData] after [saveData S] returns
    [S]; when the write throws, the store after [saveData S] is the store
    before it. In the reference engine: the JSON text of every [json_safe]
    state parses back to it, so [loadData] after [saveData S] returns [S]
    whenever the store has room for the text. *)
Theorem save_then_load :
  (forall (Storage : Type)
          (getItem : Storage -> string -> option (option string))
          (setItem : Storage -> string -> string -> option Storage)
          (JSON_parse : string -> option value)
          (JSON_stringify : value -> option string)
          (ls : Storage) (S : value),
     (forall ls' text,
        JSON_stringify S = Some text ->
        JSON_parse text = Some S ->
        text <> "" ->
        setItem ls STORAGE_KEY text = Some ls' ->
        getItem ls' STORAGE_KEY = Some (Some text) ->
        loadData getItem JSON_parse (saveData setItem JSON_stringify S ls)
        = S)
     /\ (setItem ls STORAGE_KEY (ToString_opt (JSON_stringify S)) = None ->
         saveData setItem JSON_stringify S ls = ls))
  /\ (forall (ls ls' : Engine.LocalStorage) (S : value),
        json_safe S ->
        Engine.setItem ls STORAGE_KEY
          (ToString_opt (Engine.JSON_stringify S)) = Some ls' ->
        loadData Engine.getItem Engine.JSON_parse
          (saveData Engine.setItem Engine.JSON_stringify S ls)
        = S).
Proof.
  split.
  - intros Storage getItem setItem JSON_parse JSON_stringify ls S. split.
    + intros ls' text. apply save_then_load_any.
    + intros Hset. unfold saveData. now rewrite Hset.
  - intros ls ls' S Hj Hset.
    destruct (JSON_roundtrip S Hj) as (text & Hs & Hne & Hp).
    rewrite Hs in Hset. simpl in Hset.
    apply (save_then_load_any _ _ _ _ _ ls ls' S text); auto.
    now apply (Engine_reads_back ls).
Qed.

(** C1 fails as stated, twice over. With the store too full for the text of
    [sample_data], [setItem] throws, [saveData] swallows it, and [loadData]
    returns the default state. With room in the store, the infinite
    position of [stray_data] is written as null and read back as null. *)
Lemma save_then_load_loses_state :
  (Engine.setItem full_storage STORAGE_KEY
     (ToString_opt (Engine.JSON_stringify sample_data)) = None
   /\ loadData Engine.getItem Engine.JSON_parse
        (saveData Engine.setItem Engine.JSON_stringify sample_data
                  full_storage)
      = default_data
   /\ default_data <> sample_data)
  /\ (exists reloaded,
        loadData Engine.getItem Engine.JSON_parse
          (saveData Engine.setItem Engine.JSON_stringify stray_data
                    roomy_storage)
        = reloaded
        /\ prop "items" stray_data
           = VArr [sample_item "A" "Login" "ui" infinity 150%float]
        /\ prop "items" reloaded
           = VArr [VObj [ ("id", VStr "A"); ("name", VStr "Login");
                          ("category", VStr "ui"); ("x", VNull);
                          ("y", VNum 150%float) ]]
        /\ reloaded <> stray_data).
Proof.
  split.
  - split; [vm_compute; reflexivity|].
    split; [vm_compute; reflexivity|]. discriminate.
  - eexists. split; [vm_compute; reflexivity|].
    split; [reflexivity|]. split; [reflexivity|]. discriminate.
Qed.

(** ** Further properties of the state operations *)

(** X1. The relationship-type delete guard. When some connection has the type
    [relId], [deleteRelationshipType relId] changes nothing in the
    application state and raises the alert [relationship_type_in_use];
    when none has, it keeps, in their order, exactly the relationship
    types whose id is not [relId]. *)
Theorem deleteRelationshipType_guard (st : State) (relId : string)
  (cs rels : list value) :
  prop "connections" (data st) = VArr cs ->
  prop "relationshipTypes" (data st) = VArr rels ->
  readable cs ->
  readable rels ->
  (existsb (has_type relId) cs = true ->
     deleteRelationshipType relId st
     = Some (alert "Cannot delete relationship type that is in use." st))
  /\ (existsb (has_type relId) cs = false ->
        exists st',
          deleteRelationshipType relId st = Some st'
          /\ prop "relationshipTypes" (data st')
             = VArr (filter (fun r => negb (has_id relId r)) rels)
          /\ (forall k, k <> "relationshipTypes" ->
                prop k (data st') = prop k (data st))
          /\ alerts st' = alerts st).
Proof.
  intros Hc Hr Hrc Hrr.
  destruct (prop_arr_is_obj _ _ _ Hc) as [ps Hd].
  assert (Hs : Array_some (of_type relId) cs
               = Some (existsb (has_type relId) cs)).
  { apply Array_some_pure. pure_callback. }
  unfold deleteRelationshipType. rewrite (get_prop_arr _ _ _ Hc). simpl.
  rewrite Hs. split; intros ->.
  - reflexivity.
  - rewrite (get_prop_arr _ _ _ Hr). simpl.
    rewrite (Array_filter_pure _ (fun r => negb (has_id relId r)))
      by pure_callback.
    eexists. split; [reflexivity|].
    unfold setData; cbn [data alerts].
    split; [apply prop_with_prop_same|]. split; [|reflexivity].
    intros k Hk. rewrite Hd at 1.
    erewrite prop_with_prop_other; [now rewrite Hd | reflexivity | exact Hk].
Qed.

Lemma Array_find_none (f : value -> option bool) (p : value -> bool)
  (l : list value) :
  Forall (fun x => f x = Some (p x)) l ->
  existsb p l = false -> Array_find f l = Some VUndefined.
Proof.
  induction 1 as [|x l Hx _ IH]; simpl; [reflexivity|].
  rewrite Hx. destruct (p x); simpl; [discriminate | exact IH].
Qed.

(** X2. The lookup fallback. When no category has the id [x], [getCategory x]
    returns the placeholder named Unknown with the colour #666; when no
    relationship type has it, [getRelType x] returns the placeholder named
    unknown with the colour #666, not dashed. Neither throws. *)
Theorem lookup_fallback (d : value) (x : string) :
  (forall cats,
     prop "categories" d = VArr cats ->
     readable cats ->
     existsb (has_id x) cats = false ->
     getCategory x d
     = Some (VObj [("name", VStr "Unknown"); ("color", VStr "#666")]))
  /\ (forall rels,
        prop "relationshipTypes" d = VArr rels ->
        readable rels ->
        existsb (has_id x) rels = false ->
        getRelType x d
        = Some (VObj [("name", VStr "unknown"); ("color", VStr "#666");
                      ("dashed", VBool false)])).
Proof.
  split; intros l Hl Hr Hn.
  - unfold getCategory. rewrite (get_prop_arr _ _ _ Hl). simpl.
    rewrite (Array_find_none _ (has_id x));
      [reflexivity | pure_callback | exact Hn].
  - unfold getRelType. rewrite (get_prop_arr _ _ _ Hl). simpl.
    rewrite (Array_find_none _ (has_id x));
      [reflexivity | pure_callback | exact Hn].
Qed.

(** X3. A new connection. When no connection joins [a] and [b], in either
    orientation, [addConnection a b] appends one connection, with a
    generated id and the given endpoints, type and flag, after the
    existing ones, and clears the dialog, the draft and the connecting-from
    item. *)
Theorem addConnection_fresh
  (Number_toString Number_toString36 : number -> string)
  (now rnd : number) (st : State) (cs : list value)
  (a b relationshipType : string) (bidirectional : bool) :
  prop "connections" (data st) = VArr cs ->
  readable cs ->
  existsb (connects a b) cs = false ->
  exists st',
    addConnection Number_toString Number_toString36 now rnd
                  a b relationshipType bidirectional st = Some st'
    /\ prop "connections" (data st')
       = VArr (cs ++ [newConnection
                        (generateId Number_toString Number_toString36 now rnd)
                        a b relationshipType bidirectional])
    /\ showNewConnectionModal st' = false
    /\ pendingConnection st' = None
    /\ connectingFrom st' = None.
Proof.
  intros Hcs Hr Hn. unfold addConnection.
  rewrite (get_prop_arr _ _ _ Hcs). simpl.
  rewrite (Array_some_pure _ (connects a b)) by pure_callback.
  rewrite Hn. eexists. split; [reflexivity|].
  split; [apply prop_with_prop_same | repeat split].
Qed.

(** ** Arrow geometry *)

Section Arrow_facts.

Local Open Scope float_scope.

(** A finite double minus itself is zero. *)
Lemma sub_diag_finite (x : number) : finite x = true -> x - x = 0.
Proof.
  unfold finite. intros H. apply Prim2SF_inj. rewrite sub_spec.
  destruct (Prim2SF x) as [s|s| |s m e]; try discriminate.
  - now destruct s.
  - unfold SF64sub, SFsub. cbv zeta. rewrite Z.sub_diag. reflexivity.
Qed.

(** The square of a zero, of either sign, is the positive zero. *)
Lemma square_zero (d : number) : (d =? 0) = true -> d * d = 0.
Proof.
  rewrite eqb_spec. change (Prim2SF 0) with (S754_zero false).
  intros Hd. apply Prim2SF_inj. rewrite mul_spec.
  destruct (Prim2SF d) as [s|s| |s m e]; simpl in Hd.
  - now destruct s.
  - destruct s; discriminate.
  - discriminate.
  - destruct s; discriminate.
Qed.

Lemma zero_vector_length (dx dy : number) :
  (dx =? 0) = true -> (dy =? 0) = true ->
  (Math_sqrt (dx * dx + dy * dy) =? 0) = true.
Proof.
  intros Hx Hy. rewrite (square_zero dx Hx), (square_zero dy Hy). reflexivity.
Qed.

End Arrow_facts.

(** C7. [getArrowPath] is a function of its five arguments. On a
    zero-length vector, so on coincident finite endpoints, the three paths
    are empty. Otherwise the line runs from the first point moved 32 along
    the unit vector to the second point moved 32 back along it. From
    (0,0) to (100,0) the line runs from (32,0) to (68,0), the arrowhead is
    two strokes from (68,0), each 10 times the cosine and sine of the
    angle of the line turned by pi/6 one way and the other, and there is
    no reverse arrowhead; with the bidirectional flag the line and the
    arrowhead are the same and the reverse arrowhead is the same
    construction from (32,0) on the angle turned by pi. *)
Theorem getArrowPath_geometry (str : number -> string)
  (atan2 : number -> number -> number) (cos sin : number -> number) :
  (forall x1 y1 x2 y2 b,
     (x2 - x1 =? 0)%float = true -> (y2 - y1 =? 0)%float = true ->
     getArrowPath str atan2 cos sin x1 y1 x2 y2 b = mkArrowPath "" "" "")
  /\ (forall x y b,
        finite x = true -> finite y = true ->
        getArrowPath str atan2 cos sin x y x y b = mkArrowPath "" "" "")
  /\ (forall x1 y1 x2 y2 b,
        let dx := (x2 - x1)%float in
        let dy := (y2 - y1)%float in
        let len := Math_sqrt (dx * dx + dy * dy)%float in
        (len =? 0)%float = false ->
        linePath (getArrowPath str atan2 cos sin x1 y1 x2 y2 b)
        = "M " ++ str (x1 + dx / len * 32)%float
          ++ " " ++ str (y1 + dy / len * 32)%float
          ++ " L " ++ str (x2 - dx / len * 32)%float
          ++ " " ++ str (y2 - dy / len * 32)%float)
  /\ (let angle := atan2 0%float 36%float in
      let line :=
        "M " ++ str 32%float ++ " " ++ str 0%float
        ++ " L " ++ str 68%float ++ " " ++ str 0%float in
      let head :=
        "M " ++ str 68%float ++ " " ++ str 0%float
        ++ " L " ++ str (68 - 10 * cos (angle - Math_PI / 6))%float
        ++ " " ++ str (0 - 10 * sin (angle - Math_PI / 6))%float
        ++ " M " ++ str 68%float ++ " " ++ str 0%float
        ++ " L " ++ str (68 - 10 * cos (angle + Math_PI / 6))%float
        ++ " " ++ str (0 - 10 * sin (angle + Math_PI / 6))%float in
      let tail :=
        "M " ++ str 32%float ++ " " ++ str 0%float
        ++ " L "
        ++ str (32 - 10 * cos (angle + Math_PI - Math_PI / 6))%float
        ++ " " ++ str (0 - 10 * sin (angle + Math_PI - Math_PI / 6))%float
        ++ " M " ++ str 32%float ++ " " ++ str 0%float
        ++ " L "
        ++ str (32 - 10 * cos (angle + Math_PI + Math_PI / 6))%float
        ++ " " ++ str (0 - 10 * sin (angle + Math_PI + Math_PI / 6))%float in
      getArrowPath str atan2 cos sin 0%float 0%float 100%float 0%float false
      = mkArrowPath line head ""
      /\ getArrowPath str atan2 cos sin 0%float 0%float 100%float 0%float true
         = mkArrowPath line head tail).
Proof.
  assert (Hz : forall x1 y1 x2 y2 b,
            (x2 - x1 =? 0)%float = true -> (y2 - y1 =? 0)%float = true ->
            getArrowPath str atan2 cos sin x1 y1 x2 y2 b
            = mkArrowPath "" "" "").
  { intros x1 y1 x2 y2 b Hx Hy. unfold getArrowPath. cbv zeta.
    now rewrite (zero_vector_length _ _ Hx Hy). }
  split; [exact Hz|]. split.
  { intros x y b Hx Hy. apply Hz.
    - now rewrite (sub_diag_finite x Hx).
    - now rewrite (sub_diag_finite y Hy). }
  split.
  { intros x1 y1 x2 y2 b dx dy len Hlen. unfold getArrowPath. cbv zeta.
    fold dx dy. fold len. rewrite Hlen. reflexivity. }
  cbv zeta. split; reflexivity.
Qed.

(** * The theorems at work on the sample states *)

(** A literal number reads back; the names of a literal object are
    distinct; a literal state is [json_safe]. *)
Ltac reads_back_literal :=
  intros rest [-> | (c & r & -> & [-> | [-> | ->]])]; vm_compute; reflexivity.

Ltac distinct_names :=
  repeat (constructor; [simpl; intuition discriminate|]); constructor.

Ltac json_safe_literal :=
  simpl; repeat split;
  first [reflexivity | distinct_names | reads_back_literal].

(** [sample_data], saved into a store with room and loaded again, and
    saved into a store without room. *)
Lemma save_then_load_sample :
  loadData Engine.getItem Engine.JSON_parse
    (saveData Engine.setItem Engine.JSON_stringify sample_data roomy_storage)
  = sample_data
  /\ saveData Engine.setItem Engine.JSON_stringify sample_data full_storage
     = full_storage.
Proof.
  split.
  - eapply (proj2 save_then_load roomy_storage).
    + json_safe_literal.
    + vm_compute; reflexivity.
  - apply (proj2 (proj1 save_then_load Engine.LocalStorage Engine.getItem
                    Engine.setItem Engine.JSON_parse Engine.JSON_stringify
                    full_storage sample_data)).
    vm_compute; reflexivity.
Defined.

(** A store that holds text that is not JSON, and an empty store. *)
Lemma loadData_default_sample :
  loadData Engine.getItem Engine.JSON_parse garbled_storage = default_data
  /\ loadData Engine.getItem Engine.JSON_parse roomy_storage = default_data.
Proof.
  split.
  - apply (loadData_default Engine.LocalStorage Engine.getItem
             Engine.JSON_parse garbled_storage).
    right. left. exists "{items: oops". split; vm_compute; reflexivity.
  - apply (loadData_default Engine.LocalStorage Engine.getItem
             Engine.JSON_parse roomy_storage).
    left. reflexivity.
Defined.

(** A to B again, and B to A, over the connection from A to B. *)
Lemma addConnection_duplicate_sample :
  addConnection Engine.Number_toString Engine.Number_toString36
    1700000000000%float 0.5%float "A" "B" "part-of" true sample_state
  = Some sample_state
  /\ addConnection Engine.Number_toString Engine.Number_toString36
       1700000000000%float 0.5%float "B" "A" "part-of" true sample_state
     = Some sample_state.
Proof.
  apply (addConnection_duplicate Engine.Number_toString
           Engine.Number_toString36 1700000000000%float 0.5%float
           sample_state [conn_AB; conn_CA; conn_BC] conn_AB "A" "B").
  - reflexivity.
  - literal_readable.
  - now left.
  - reflexivity.
Defined.

(** With the connections A to B, C to A and B to C, deleting A leaves the
    items B and C and exactly the connection from B to C. *)
Lemma deleteItem_cascade_sample :
  exists st',
    deleteItem "A" sample_state = Some st'
    /\ prop "items" (data st') = VArr [item_B; item_C]
    /\ prop "connections" (data st') = VArr [conn_BC].
Proof.
  destruct (deleteItem_cascade sample_state "A" [item_A; item_B; item_C]
              [conn_AB; conn_CA; conn_BC])
    as (st' & H1 & H2 & H3 & _).
  - reflexivity.
  - reflexivity.
  - literal_readable.
  - literal_readable.
  - exists st'. split; [exact H1|]. split; [exact H2 | exact H3].
Defined.

(** The category ui has the item A; the category core has no item. *)
Lemma deleteCategory_guard_sample :
  deleteCategory "ui" sample_state = Some (alert category_in_use sample_state)
  /\ exists st',
       deleteCategory "core" sample_state = Some st'
       /\ prop "categories" (data st')
          = VArr [ VObj [("id", VStr "ui"); ("name", VStr "UI");
                         ("color", VStr "#60a5fa")];
                   VObj [("id", VStr "mechanics"); ("name", VStr "Mechanics");
                         ("color", VStr "#f472b6")];
                   VObj [("id", VStr "data"); ("name", VStr "Data");
                         ("color", VStr "#4ade80")] ].
Proof.
  assert (Hi : prop "items" (data sample_state)
               = VArr [item_A; item_B; item_C]) by reflexivity.
  assert (Hc : prop "categories" (data sample_state) = DEFAULT_CATEGORIES)
    by reflexivity.
  assert (Hri : readable [item_A; item_B; item_C]) by literal_readable.
  split.
  - destruct (deleteCategory_guard sample_state "ui" _ _ Hi Hc Hri)
      as [Hused _]; [literal_readable|].
    destruct Hused as [H _]; [reflexivity | exact H].
  - destruct (deleteCategory_guard sample_state "core" _ _ Hi Hc Hri)
      as [_ Hfree]; [literal_readable|].
    destruct Hfree as (st' & H1 & H2 & _); [reflexivity|].
    exists st'. split; [exact H1 | exact H2].
Defined.

(** A file that holds a JSON array, and a file that is not JSON. *)
Lemma importData_sample :
  data (importData Engine.JSON_parse (Some "[1, 2]") sample_state)
  = VArr [VNum 1%float; VNum 2%float]
  /\ importData Engine.JSON_parse (Some "{items: oops") sample_state
     = alert import_failed sample_state.
Proof.
  split.
  - destruct (importData_replaces_or_alerts Engine.JSON_parse sample_state
                "[1, 2]") as [H _].
    destruct (H (VArr [VNum 1%float; VNum 2%float])) as (_ & Hd & _);
      [vm_compute; reflexivity | exact Hd].
  - destruct (importData_replaces_or_alerts Engine.JSON_parse sample_state
                "{items: oops") as [_ H].
    destruct H as (H & _); [vm_compute; reflexivity | exact H].
Defined.

(** Coincident endpoints at (5,5), and the line from (0,0) to (100,0). *)
Lemma getArrowPath_sample :
  getArrowPath Engine.Number_toString Engine.Math_atan2 Engine.Math_cos
    Engine.Math_sin 5%float 5%float 5%float 5%float false
  = mkArrowPath "" "" ""
  /\ linePath
       (getArrowPath Engine.Number_toString Engine.Math_atan2 Engine.Math_cos
          Engine.Math_sin 0%float 0%float 100%float 0%float false)
     = "M 32 0 L 68 0".
Proof.
  destruct (getArrowPath_geometry Engine.Number_toString Engine.Math_atan2
              Engine.Math_cos Engine.Math_sin) as (_ & Hsame & Hline & _).
  split.
  - apply Hsame; reflexivity.
  - rewrite Hline; [vm_compute; reflexivity | reflexivity].
Defined.

(** Math.random() at the double nearest to one tenth, whose base-36 text
    is [0.3lllllllllm]. *)
Lemma generateId_sample :
  generateId Engine.Number_toString Engine.Number_toString36
    1700000000000%float 0x1.999999999999ap-4%float
  = "1700000000000-3llllllll".
Proof.
  destruct (generateId_shape Engine.Number_toString Engine.Number_toString36
              1700000000000%float 0x1.999999999999ap-4%float)
    as (Hid & _ & _ & Hdigits).
  rewrite Hid, (Hdigits "3lllllllllm"); vm_compute; reflexivity.
Defined.

(** No category and no relationship type has the id nope. *)
Lemma update_unknown_id_sample :
  updateCategory "nope" [("name", VStr "Renamed")] sample_state
  = Some sample_state
  /\ updateRelationshipType "nope" [("dashed", VBool true)] sample_state
     = Some sample_state.
Proof.
  destruct (update_unknown_id sample_state "nope" [("name", VStr "Renamed")])
    as [Hc _].
  destruct (update_unknown_id sample_state "nope" [("dashed", VBool true)])
    as [_ Hr].
  split.
  - eapply Hc; [reflexivity | literal_readable | reflexivity].
  - eapply Hr; [reflexivity | literal_readable | reflexivity].
Defined.

(** The type depends-on has the connection from A to B; no connection of
    the default state has any type. *)
Lemma deleteRelationshipType_guard_sample :
  deleteRelationshipType "depends-on" sample_state
  = Some (alert relationship_type_in_use sample_state)
  /\ exists st',
       deleteRelationshipType "part-of" (setData default_data sample_state)
       = Some st'
       /\ prop "relationshipTypes" (data st')
          = VArr [ VObj [("id", VStr "depends-on"); ("name", VStr "depends on");
                         ("color", VStr "#94a3b8"); ("dashed", VBool false)];
                   VObj [("id", VStr "related-to"); ("name", VStr "related to");
                         ("color", VStr "#67e8f9"); ("dashed", VBool true)] ].
Proof.
  split.
  - destruct (deleteRelationshipType_guard sample_state "depends-on"
                [conn_AB; conn_CA; conn_BC]
                [ VObj [("id", VStr "depends-on"); ("name", VStr "depends on");
                        ("color", VStr "#94a3b8"); ("dashed", VBool false)];
                  VObj [("id", VStr "part-of"); ("name", VStr "part of");
                        ("color", VStr "#a78bfa"); ("dashed", VBool true)];
                  VObj [("id", VStr "related-to"); ("name", VStr "related to");
                        ("color", VStr "#67e8f9"); ("dashed", VBool true)] ])
      as [Hused _];
      [reflexivity | reflexivity | literal_readable | literal_readable |].
    apply Hused. reflexivity.
  - destruct (deleteRelationshipType_guard
                (setData default_data sample_state) "part-of" []
                [ VObj [("id", VStr "depends-on"); ("name", VStr "depends on");
                        ("color", VStr "#94a3b8"); ("dashed", VBool false)];
                  VObj [("id", VStr "part-of"); ("name", VStr "part of");
                        ("color", VStr "#a78bfa"); ("dashed", VBool true)];
                  VObj [("id", VStr "related-to"); ("name", VStr "related to");
                        ("color", VStr "#67e8f9"); ("dashed", VBool true)] ])
      as [_ Hfree];
      [reflexivity | reflexivity | literal_readable | literal_readable |].
    destruct Hfree as (st' & H1 & H2 & _); [reflexivity|].
    exists st'. split; [exact H1 | exact H2].
Defined.

(** No category and no relationship type of the sample has the id gone. *)
Lemma lookup_fallback_sample :
  getCategory "gone" sample_data = Some unknown_category
  /\ getRelType "gone" sample_data = Some unknown_relationship_type.
Proof.
  destruct (lookup_fallback sample_data "gone") as [Hc Hr].
  split.
  - eapply Hc; [reflexivity | literal_readable | reflexivity].
  - eapply Hr; [reflexivity | literal_readable | reflexivity].
Defined.

(** A first connection from A to B, drawn in the default state. *)
Lemma addConnection_fresh_sample :
  exists st',
    addConnection Engine.Number_toString Engine.Number_toString36
      1700000000000%float 0.5%float "A" "B" "part-of" true
      (setData default_data dialog_state) = Some st'
    /\ prop "connections" (data st')
       = VArr [newConnection "1700000000000-i" "A" "B" "part-of" true]
    /\ showNewConnectionModal st' = false
    /\ pendingConnection st' = None
    /\ connectingFrom st' = None.
Proof.
  destruct (addConnection_fresh Engine.Number_toString Engine.Number_toString36
              1700000000000%float 0.5%float
              (setData default_data dialog_state) [] "A" "B" "part-of" true)
    as (st' & H1 & H2 & H3);
    [reflexivity | literal_readable | reflexivity |].
  exists st'. split; [exact H1|]. split; [|exact H3].
  rewrite H2. vm_compute; reflexivity.
Defined.
